(** * seg7-multiplex: the multiplexing and decoding engine of src/seg7multiplex.c

    A shallow embedding of the firmware's core: the bit queue that connects
    the edge interrupt to the main loop, the step-by-step shift register
    sender, the glyph matcher, and the input decoder run by the main loop.

    Machine integers are modelled as [Z] with the wrap-around of their C type
    written out ([u8], [u16], [u32]); the static variables of the unit are
    gathered in one record that every function takes and returns. *)

From Stdlib Require Import ZArith List Bool Lia.
Import ListNotations.
Local Open Scope Z_scope.

(* ------------------------------------------------------------------ *)
(** ** Machine integers *)

Definition u8 (x : Z) : Z := x mod 256.
Definition u16 (x : Z) : Z := x mod 65536.
Definition u32 (x : Z) : Z := x mod 4294967296.

(** [x++] on a [uint8_t] followed by [if (x == 16) x = 0;]. *)
Definition advance_index (i : Z) : Z :=
  let i' := u8 (i + 1) in if i' =? 16 then 0 else i'.

(* ------------------------------------------------------------------ *)
(** ** SerialQueue *)

Record SerialQueue : Set := mkSerialQueue {
  data : Z;          (* uint16_t *)
  write_index : Z;   (* uint8_t *)
  read_index : Z     (* uint8_t *)
}.

Definition serial_queue_init : SerialQueue := mkSerialQueue 0 0 0.

Definition serial_queue_write (b : bool) (q : SerialQueue) : SerialQueue :=
  let d := if b
           then Z.lor (data q) (Z.shiftl 1 (write_index q))
           else Z.land (data q) (Z.lnot (Z.shiftl 1 (write_index q))) in
  mkSerialQueue (u16 d) (advance_index (write_index q)) (read_index q).

(** [None] is the C function returning [false]; [Some (b, q')] is it
    returning [true] with [*data = b]. *)
Definition serial_queue_read (q : SerialQueue) : option (bool * SerialQueue) :=
  if read_index q =? write_index q then None
  else
    let b := Z.land (data q) (Z.shiftl 1 (read_index q)) >? 0 in
    Some (b, mkSerialQueue (data q) (write_index q) (advance_index (read_index q))).

(** Writing a sequence of bits, first bit first. *)
Definition write_bits (bits : list bool) (q : SerialQueue) : SerialQueue :=
  fold_left (fun q b => serial_queue_write b q) bits q.

(** [n] reads in a row; [None] as soon as one of them finds the queue empty. *)
Fixpoint read_bits (n : nat) (q : SerialQueue) : option (list bool * SerialQueue) :=
  match n with
  | O => Some ([], q)
  | S n' =>
      match serial_queue_read q with
      | None => None
      | Some (b, q') =>
          match read_bits n' q' with
          | None => None
          | Some (l, q'') => Some (b :: l, q'')
          end
      end
  end.

(** Abstraction of a queue: indices in range, and the bits that the reader
    will see, oldest first. *)
Definition queue_wf (q : SerialQueue) : Prop :=
  0 <= data q < 65536 /\ 0 <= write_index q < 16 /\ 0 <= read_index q < 16.

Definition queue_length (q : SerialQueue) : Z :=
  (write_index q - read_index q) mod 16.

Definition slot (q : SerialQueue) (i : nat) : Z :=
  (read_index q + Z.of_nat i) mod 16.

Definition queue_contents (q : SerialQueue) : list bool :=
  map (fun i => Z.testbit (data q) (slot q i))
      (seq 0 (Z.to_nat (queue_length q))).

(* ------------------------------------------------------------------ *)
(** ** Pins *)

Inductive Pin : Set := SRCLK | SER | CNT | INCLK | INSER.

(** Modelled from the spec: the pin layer (common/pin.h) is not part of the
    sources at hand.  Its operations drive a named pin high or low, or to a
    given level; each call is recorded, in program order, in a trace of pin
    operations.  [pinset p x] drives [p] high exactly when [x] is nonzero. *)
Inductive PinOp : Set :=
| pinoutputmode (p : Pin)
| pinhigh (p : Pin)
| pinlow (p : Pin)
| pinset (p : Pin) (high : bool).

(* ------------------------------------------------------------------ *)
(** ** SRValueSender *)

Record SRValueSender : Set := mkSRValueSender {
  val : Z;             (* uint8_t *)
  index : Z;           (* uint8_t *)
  going_high : bool
}.

Inductive SRValueSenderStatus : Set :=
| SRValueSenderStatus_Beginning
| SRValueSenderStatus_Middle
| SRValueSenderStatus_Last
| SRValueSenderStatus_Finished.

Definition init_sr_sender (v : Z) : SRValueSender :=
  mkSRValueSender v 0 false.

(** One call: the status returned, the pin operations performed, and the
    sender afterwards. *)
Definition sr_sender_step (s : SRValueSender)
  : SRValueSenderStatus * list PinOp * SRValueSender :=
  if index s <? 8 then
    if going_high s then
      let res := if index s =? 7 then SRValueSenderStatus_Last
                 else SRValueSenderStatus_Middle in
      (res,
       [pinset SER (negb (Z.land (val s) (Z.shiftl 1 (7 - index s)) =? 0));
        pinhigh SRCLK],
       mkSRValueSender (val s) (u8 (index s + 1)) false)
    else
      let res := if index s =? 0 then SRValueSenderStatus_Beginning
                 else SRValueSenderStatus_Middle in
      (res, [pinlow SRCLK], mkSRValueSender (val s) (index s) true)
  else
    (SRValueSenderStatus_Finished, [], s).

(** [n] calls in a row: for each call, in order, the status it returned and
    the pin operations it performed. *)
Fixpoint sr_sender_run (n : nat) (s : SRValueSender)
  : list (SRValueSenderStatus * list PinOp) * SRValueSender :=
  match n with
  | O => ([], s)
  | S n' =>
      let '(st, ops, s1) := sr_sender_step s in
      let '(calls, s2) := sr_sender_run n' s1 in
      ((st, ops) :: calls, s2)
  end.

(** The status returned by call number [k] (counted from 1) after
    [init_sr_sender b]. *)
Definition status_of_call (b : Z) (k : nat) : SRValueSenderStatus :=
  fst (last (fst (sr_sender_run k (init_sr_sender b)))
            (SRValueSenderStatus_Finished, [])).

(** The pin operations of a run, call by call, and all in one trace. *)
Definition ops_by_call (calls : list (SRValueSenderStatus * list PinOp))
  : list (list PinOp) := map snd calls.

Definition ops_of (calls : list (SRValueSenderStatus * list PinOp))
  : list PinOp := concat (ops_by_call calls).

(** What the two calls that send bit [7 - i] are expected to do: clock low,
    then data and clock high. *)
Definition bit_calls (v i : Z) : list (SRValueSenderStatus * list PinOp) :=
  [(if i =? 0 then SRValueSenderStatus_Beginning else SRValueSenderStatus_Middle,
    [pinlow SRCLK]);
   (if i =? 7 then SRValueSenderStatus_Last else SRValueSenderStatus_Middle,
    [pinset SER (Z.testbit v (7 - i)); pinhigh SRCLK])].

(** The levels written to the data pin, in order. *)
Definition ser_writes (ops : list PinOp) : list bool :=
  flat_map (fun o => match o with pinset SER h => [h] | _ => [] end) ops.

(* ------------------------------------------------------------------ *)
(** ** Glyph matching *)

Definition DIGITS : Z := 4.
Definition MAX_SER_CYCLES_BEFORE_TIMEOUT : Z := 3.

Definition glyph_matches (glyph digit : Z) : bool :=
  if (glyph <? 10) && (glyph =? digit) then true
  else if glyph >? 15 then false
  else if digit =? 8 then true
  else
    match glyph with
    | 1 => (digit =? 0) || (digit =? 3) || (digit =? 4) || (digit =? 7) || (digit =? 9)
    | 5 => (digit =? 6)
    | 7 => (digit =? 0) || (digit =? 3) || (digit =? 9)
    | 10 => (digit =? 2) || (digit =? 6)
    | 11 => (digit =? 3) || (digit =? 5) || (digit =? 6)
    | 12 => (digit =? 4) || (digit =? 9)
    | 13 => (digit =? 5) || (digit =? 6) || (digit =? 9)
    | 14 => (digit =? 6)
    | _ => false
    end.

(** The table of the specification: the digits that accept a glyph besides
    the digit of the same number and digit 8. *)
Definition glyph_table (glyph : Z) : list Z :=
  match glyph with
  | 1 => [0; 3; 4; 7; 9]
  | 5 => [6]
  | 7 => [0; 3; 9]
  | 10 => [2; 6]
  | 11 => [3; 5; 6]
  | 12 => [4; 9]
  | 13 => [5; 6; 9]
  | 14 => [6]
  | _ => []
  end.

(** The [for] loop of [glyph_match_mask], from [i] up to [DIGITS]; [n] is the
    number of iterations left. *)
Fixpoint glyph_match_mask_from (n : nat) (i v glyph res : Z) : Z :=
  match n with
  | O => res
  | S n' =>
      let res' := if glyph_matches glyph (v mod 10)
                  then u8 (Z.lor res (Z.shiftl 1 i)) else res in
      glyph_match_mask_from n' (u8 (i + 1)) (v / 10) glyph res'
  end.

Definition glyph_match_mask (v glyph : Z) : Z :=
  glyph_match_mask_from (Z.to_nat DIGITS) 0 v glyph 0.

(* ------------------------------------------------------------------ *)
(** ** The static variables of the unit *)

Record State : Set := mkState {
  refresh_needed : bool;
  input_mode : bool;
  ser_input : Z;          (* uint8_t *)
  ser_input_pos : Z;      (* uint8_t *)
  display_value : Z;      (* uint32_t *)
  display_dotmask : Z;    (* uint8_t *)
  digit_count : Z;        (* uint8_t *)
  ser_timeout : Z;        (* uint8_t *)
  current_glyph : Z;      (* uint8_t *)
  serial_queue : SerialQueue;
  sr_sender : SRValueSender;
  pin_trace : list PinOp  (* every pin operation so far, oldest first *)
}.

Definition set_refresh_needed (x : bool) (s : State) : State :=
  mkState x (input_mode s) (ser_input s) (ser_input_pos s) (display_value s)
    (display_dotmask s) (digit_count s) (ser_timeout s) (current_glyph s)
    (serial_queue s) (sr_sender s) (pin_trace s).
Definition set_input_mode (x : bool) (s : State) : State :=
  mkState (refresh_needed s) x (ser_input s) (ser_input_pos s) (display_value s)
    (display_dotmask s) (digit_count s) (ser_timeout s) (current_glyph s)
    (serial_queue s) (sr_sender s) (pin_trace s).
Definition set_ser_input (x : Z) (s : State) : State :=
  mkState (refresh_needed s) (input_mode s) x (ser_input_pos s) (display_value s)
    (display_dotmask s) (digit_count s) (ser_timeout s) (current_glyph s)
    (serial_queue s) (sr_sender s) (pin_trace s).
Definition set_ser_input_pos (x : Z) (s : State) : State :=
  mkState (refresh_needed s) (input_mode s) (ser_input s) x (display_value s)
    (display_dotmask s) (digit_count s) (ser_timeout s) (current_glyph s)
    (serial_queue s) (sr_sender s) (pin_trace s).
Definition set_display_value (x : Z) (s : State) : State :=
  mkState (refresh_needed s) (input_mode s) (ser_input s) (ser_input_pos s) x
    (display_dotmask s) (digit_count s) (ser_timeout s) (current_glyph s)
    (serial_queue s) (sr_sender s) (pin_trace s).
Definition set_display_dotmask (x : Z) (s : State) : State :=
  mkState (refresh_needed s) (input_mode s) (ser_input s) (ser_input_pos s)
    (display_value s) x (digit_count s) (ser_timeout s) (current_glyph s)
    (serial_queue s) (sr_sender s) (pin_trace s).
Definition set_digit_count (x : Z) (s : State) : State :=
  mkState (refresh_needed s) (input_mode s) (ser_input s) (ser_input_pos s)
    (display_value s) (display_dotmask s) x (ser_timeout s) (current_glyph s)
    (serial_queue s) (sr_sender s) (pin_trace s).
Definition set_ser_timeout (x : Z) (s : State) : State :=
  mkState (refresh_needed s) (input_mode s) (ser_input s) (ser_input_pos s)
    (display_value s) (display_dotmask s) (digit_count s) x (current_glyph s)
    (serial_queue s) (sr_sender s) (pin_trace s).
Definition set_current_glyph (x : Z) (s : State) : State :=
  mkState (refresh_needed s) (input_mode s) (ser_input s) (ser_input_pos s)
    (display_value s) (display_dotmask s) (digit_count s) (ser_timeout s) x
    (serial_queue s) (sr_sender s) (pin_trace s).
Definition set_serial_queue (x : SerialQueue) (s : State) : State :=
  mkState (refresh_needed s) (input_mode s) (ser_input s) (ser_input_pos s)
    (display_value s) (display_dotmask s) (digit_count s) (ser_timeout s)
    (current_glyph s) x (sr_sender s) (pin_trace s).
Definition set_sr_sender (x : SRValueSender) (s : State) : State :=
  mkState (refresh_needed s) (input_mode s) (ser_input s) (ser_input_pos s)
    (display_value s) (display_dotmask s) (digit_count s) (ser_timeout s)
    (current_glyph s) (serial_queue s) x (pin_trace s).
Definition emit (ops : list PinOp) (s : State) : State :=
  mkState (refresh_needed s) (input_mode s) (ser_input s) (ser_input_pos s)
    (display_value s) (display_dotmask s) (digit_count s) (ser_timeout s)
    (current_glyph s) (serial_queue s) (sr_sender s) (pin_trace s ++ ops).

(** Static storage before [seg7multiplex_setup] runs: all zero. *)
Definition power_on : State :=
  mkState false false 0 0 0 0 0 0 0
    (mkSerialQueue 0 0 0) (mkSRValueSender 0 0 false) [].

(* ------------------------------------------------------------------ *)
(** ** Display multiplexer *)

(** The one microsecond delay between the two edges of the reset pulse is
    real time and leaves no mark here. *)
Definition send_next_glyph (s : State) : State :=
  let s := set_current_glyph (u8 (current_glyph s + 1)) s in
  let s := if current_glyph s =? 15
           then set_current_glyph 0 (emit [pinhigh CNT; pinlow CNT] s)
           else s in
  let s := emit [pinhigh CNT] s in
  (* [display_value] is a uint32_t, the parameter a uint16_t *)
  set_sr_sender
    (init_sr_sender (glyph_match_mask (u16 (display_value s)) (current_glyph s))) s.

Definition perform_display_step (s : State) : bool * State :=
  let '(st, ops, snd') := sr_sender_step (sr_sender s) in
  let s := emit ops (set_sr_sender snd' s) in
  match st with
  | SRValueSenderStatus_Beginning => (true, s)
  | SRValueSenderStatus_Middle => (true, s)
  | SRValueSenderStatus_Last => (true, s)
  | SRValueSenderStatus_Finished => (false, emit [pinlow CNT] s)
  end.

(* ------------------------------------------------------------------ *)
(** ** Input decoder *)

(** Modelled from the spec: [int_pow10] lives in common/intmath, which is not
    part of the sources at hand; the specification gives the weight of
    decimal place [e] as 10^e.  The result is a uint32_t. *)
Definition int_pow10 (e : Z) : Z := u32 (10 ^ e).

Definition push_digit (value : Z) (s : State) : State :=
  let dot := negb (Z.land value 16 =? 0) in
  let s := if dot
           then set_display_dotmask
                  (u8 (Z.lor (display_dotmask s) (Z.shiftl 1 (digit_count s)))) s
           else s in
  let value := if dot then Z.land value 15 else value in
  if value >=? 10 then s
  else
    let s := if digit_count s =? 0
             then set_display_value value s
             else
               let amount_to_add := u32 (value * int_pow10 (digit_count s)) in
               set_display_value (u32 (display_value s + amount_to_add)) s in
    set_digit_count (u8 (digit_count s + 1)) s.

Definition begin_input_mode (s : State) : State :=
  let s := set_input_mode true s in
  let s := set_ser_timeout MAX_SER_CYCLES_BEFORE_TIMEOUT s in
  let s := set_digit_count 0 s in
  let s := set_display_value 0 s in
  let s := set_display_dotmask 0 s in
  let s := set_ser_input_pos 0 s in
  set_ser_input 0 s.

Definition end_input_mode (s : State) : State :=
  let s := set_input_mode false s in
  let s := set_ser_timeout 0 s in
  set_serial_queue serial_queue_init s.

(** Control after a piece of [seg7multiplex_loop]: it goes on with the
    statement that follows, or the function has returned. *)
Inductive Flow : Set :=
| Continue (s : State)
| Returned (s : State).

(** The body of the [while] loop, entered with the bit just read. *)
Definition drain_body (flag : bool) (s : State) : Flow :=
  let s := if flag
           then set_ser_input
                  (u8 (Z.lor (ser_input s) (Z.shiftl 1 (ser_input_pos s)))) s
           else s in
  let s := set_ser_input_pos (u8 (ser_input_pos s + 1)) s in
  let s := set_ser_timeout MAX_SER_CYCLES_BEFORE_TIMEOUT s in
  if ser_input_pos s =? 5 then
    let s := push_digit (ser_input s) s in
    let s := set_ser_input 0 s in
    let s := set_ser_input_pos 0 s in
    if digit_count s =? DIGITS
    then Returned (end_input_mode s)
    else Continue s
  else Continue s.

(** The [while (serial_queue_read(&flag))] loop.  [fuel] bounds the number
    of iterations; [None] means the bound was hit with bits still queued. *)
Fixpoint drain (fuel : nat) (s : State) : option Flow :=
  match serial_queue_read (serial_queue s) with
  | None => Some (Continue s)
  | Some (flag, q') =>
      match fuel with
      | O => None
      | S fuel' =>
          match drain_body flag (set_serial_queue q' s) with
          | Returned s' => Some (Returned s')
          | Continue s' => drain fuel' s'
          end
      end
  end.

(* ------------------------------------------------------------------ *)
(** ** Interrupt handlers, setup and main loop *)

(** [inser] is the level of the INSER pin at the time of the edge. *)
Definition seg7multiplex_int0_interrupt (inser : bool) (s : State) : State :=
  if negb (input_mode s) then set_input_mode true s
  else set_serial_queue (serial_queue_write inser (serial_queue s)) s.

Definition seg7multiplex_timer0_interrupt (s : State) : State :=
  set_refresh_needed true s.

(** The interrupt and timer registers that the function also programs are
    hardware, not state of the unit. *)
Definition seg7multiplex_setup (s : State) : State :=
  let s := emit [pinoutputmode SER; pinoutputmode SRCLK; pinoutputmode CNT] s in
  let s := set_input_mode false s in
  let s := set_serial_queue serial_queue_init s in
  let s := set_sr_sender
             (mkSRValueSender (val (sr_sender s)) 8 (going_high (sr_sender s))) s in
  let s := set_display_value 0 s in
  let s := set_display_dotmask 0 s in
  let s := set_ser_timeout 0 s in
  let s := set_current_glyph 0 s in
  set_refresh_needed true s.

Definition seg7multiplex_loop (fuel : nat) (s : State) : option State :=
  if input_mode s then
    let s := if ser_timeout s =? 0 then begin_input_mode s else s in
    match drain fuel s with
    | None => None
    | Some (Returned s) => Some s
    | Some (Continue s) =>
        if refresh_needed s then
          let s := set_refresh_needed false s in
          let s := set_ser_timeout (u8 (ser_timeout s - 1)) s in
          if ser_timeout s =? 0
          then Some (set_display_dotmask 1 (end_input_mode s))
          else Some s
        else Some s
    end
  else
    let '(busy, s) := perform_display_step s in
    if negb busy then
      if refresh_needed s
      then Some (send_next_glyph (set_refresh_needed false s))
      else Some s
    else Some s.

(** What happens to the unit: an edge on INT0 with the data line at a given
    level, a timer compare match, or one pass of the main loop.  Interrupts
    are taken between passes: a pass of the loop is one step. *)
Inductive Event : Set :=
| Edge (inser : bool)
| Tick
| Loop.

Definition step (fuel : nat) (e : Event) (s : State) : option State :=
  match e with
  | Edge b => Some (seg7multiplex_int0_interrupt b s)
  | Tick => Some (seg7multiplex_timer0_interrupt s)
  | Loop => seg7multiplex_loop fuel s
  end.

Fixpoint run (fuel : nat) (evs : list Event) (s : State) : option State :=
  match evs with
  | [] => Some s
  | e :: evs' =>
      match step fuel e s with
      | None => None
      | Some s' => run fuel evs' s'
      end
  end.

(** The state in which the main loop starts. *)
Definition booted : State := seg7multiplex_setup power_on.

(* ------------------------------------------------------------------ *)
(** ** Bookkeeping for statements about runs *)

(** The content of the refresh flag after [evs], when no pass of the main
    loop leaves it standing (as is the case throughout input mode). *)
Fixpoint pending_after (pending : bool) (evs : list Event) : bool :=
  match evs with
  | [] => pending
  | Tick :: evs' => pending_after true evs'
  | Loop :: evs' => pending_after false evs'
  | Edge _ :: evs' => pending_after pending evs'
  end.

(** The number of passes of the main loop in [evs] that find the refresh
    flag raised. *)
Fixpoint ticked_loops (pending : bool) (evs : list Event) : nat :=
  match evs with
  | [] => 0
  | Tick :: evs' => ticked_loops true evs'
  | Loop :: evs' => (if pending then 1 else 0) + ticked_loops false evs'
  | Edge _ :: evs' => ticked_loops pending evs'
  end.

Definition is_edge (e : Event) : bool :=
  match e with Edge _ => true | _ => false end.

Definition no_edge (evs : list Event) : bool :=
  forallb (fun e => negb (is_edge e)) evs.

(** Display mode at rest, as [seg7multiplex_setup] and [end_input_mode] leave
    it: no frame in progress, the watchdog at zero, nothing queued. *)
Definition display_idle (s : State) : Prop :=
  input_mode s = false /\
  ser_timeout s = 0 /\
  read_index (serial_queue s) = write_index (serial_queue s).

(** Announced input with no bit received yet and [r] ticked passes of the
    loop left before the watchdog fires. *)
Definition awaiting (r : Z) (s : State) : Prop :=
  input_mode s = true /\
  read_index (serial_queue s) = write_index (serial_queue s) /\
  ((ser_timeout s = 0 /\ r = MAX_SER_CYCLES_BEFORE_TIMEOUT) \/
   (ser_timeout s = r /\ 0 < r <= MAX_SER_CYCLES_BEFORE_TIMEOUT /\
    display_value s = 0)).

(** A frame in progress: fewer than [DIGITS] digits taken so far, and
    [display_value] holding just those digits. *)
Definition frame_ok (s : State) : Prop :=
  0 <= ser_input s /\
  0 <= digit_count s < DIGITS /\
  0 <= display_value s < 10 ^ digit_count s.

(** What every pass of the main loop and every interrupt preserves. *)
Definition unit_inv (s : State) : Prop :=
  queue_wf (serial_queue s) /\
  0 <= display_value s < 10 ^ DIGITS /\
  (ser_timeout s <> 0 -> frame_ok s) /\
  (input_mode s = false ->
   ser_timeout s = 0 /\
   read_index (serial_queue s) = write_index (serial_queue s)).

(* ------------------------------------------------------------------ *)
(** ** Frames on the wire *)

(** The body of the [while] loop applied to a sequence of bits, as long as
    it does not return. *)
Fixpoint feed (bits : list bool) (s : State) : Flow :=
  match bits with
  | [] => Continue s
  | b :: bits' =>
      match drain_body b s with
      | Returned s' => Returned s'
      | Continue s' => feed bits' s'
      end
  end.

Definition flow_state (f : Flow) : State :=
  match f with Continue s => s | Returned s => s end.

(** The part of the state that the decoder works on. *)
Definition decoder_fields (s : State) : bool * Z * Z * Z * Z * Z :=
  (input_mode s, ser_input s, ser_input_pos s,
   display_value s, display_dotmask s, digit_count s).

(** A delivery schedule: the edges of each chunk arrive back to back, and a
    pass of the main loop follows each chunk.  An empty chunk is a pass with
    nothing new queued. *)
Definition deliver (chunks : list (list bool)) : list Event :=
  flat_map (fun c => map Edge c ++ [Loop]) chunks.

(** A 5-bit group on the wire, least significant bit first. *)
Definition lsb_first (group : Z) : list bool :=
  map (Z.testbit group) [0; 1; 2; 3; 4].

(** A 5-bit group on the wire in the order its binary numeral is written,
    most significant bit first. *)
Definition msb_first (group : Z) : list bool :=
  map (Z.testbit group) [4; 3; 2; 1; 0].

(** The running unit [s] is inside a frame whose decoder state is that of
    [t]: announced and not yet set up, or set up with no tick pending. *)
Definition tracks (s t : State) : Prop :=
  input_mode s = true /\
  queue_wf (serial_queue s) /\
  queue_contents (serial_queue s) = [] /\
  ((ser_timeout s = 0 /\
    decoder_fields (begin_input_mode s) = decoder_fields t) \/
   (ser_timeout s <> 0 /\ refresh_needed s = false /\
    decoder_fields s = decoder_fields t)).

(* ------------------------------------------------------------------ *)
(** ** The queue as a list *)

(** What the two sides do to the queue: the interrupt writes a bit, the main
    loop tries to read one. *)
Inductive QueueOp : Set :=
| QWrite (b : bool)
| QRead.

(** A sequence of operations on the queue; the result of every read, in
    order ([None] for a read that found the queue empty). *)
Fixpoint queue_ops (ops : list QueueOp) (q : SerialQueue)
  : list (option bool) * SerialQueue :=
  match ops with
  | [] => ([], q)
  | QWrite b :: ops' => queue_ops ops' (serial_queue_write b q)
  | QRead :: ops' =>
      match serial_queue_read q with
      | None => let '(rs, q') := queue_ops ops' q in (None :: rs, q')
      | Some (b, q1) => let '(rs, q') := queue_ops ops' q1 in (Some b :: rs, q')
      end
  end.

(** The same operations on a plain first-in first-out list.  [None] when a
    write would bring the number of unread bits to 16. *)
Fixpoint fifo_ops (ops : list QueueOp) (l : list bool)
  : option (list (option bool) * list bool) :=
  match ops with
  | [] => Some ([], l)
  | QWrite b :: ops' =>
      if (length l <? 15)%nat then fifo_ops ops' (l ++ [b]) else None
  | QRead :: ops' =>
      match l with
      | [] =>
          match fifo_ops ops' [] with
          | None => None
          | Some (rs, l') => Some (None :: rs, l')
          end
      | b :: l1 =>
          match fifo_ops ops' l1 with
          | None => None
          | Some (rs, l') => Some (Some b :: rs, l')
          end
      end
  end.

(* ------------------------------------------------------------------ *)
(** ** Bookkeeping for the display side *)

(** Decimal digit number [i] of [v], the ones digit being number 0. *)
Definition decimal_digit (v : Z) (i : Z) : Z := (v / 10 ^ i) mod 10.

(** The pin operations that shift the byte [b] out, most significant bit
    first. *)
Definition shift_out_ops (b : Z) : list PinOp :=
  flat_map (fun k => [pinlow SRCLK;
                      pinset SER (Z.testbit b (7 - Z.of_nat k));
                      pinhigh SRCLK]) (seq 0 8).

(** Passes of the main loop, each one preceded by a timer tick or not. *)
Definition passes (ticks : list bool) : list Event :=
  flat_map (fun t : bool => if t then [Tick; Loop] else [Loop]) ticks.

(** The bit accumulator of a frame in progress: fewer than five bits taken,
    and nothing stored at or above the position of the next bit. *)
Definition accum_ok (s : State) : Prop :=
  0 <= ser_input_pos s <= 4 /\
  0 <= ser_input s < 2 ^ ser_input_pos s.

(** The ranges in which the counters of the unit stay. *)
Definition ranges_inv (s : State) : Prop :=
  0 <= ser_timeout s <= MAX_SER_CYCLES_BEFORE_TIMEOUT /\
  0 <= current_glyph s <= 14 /\
  0 <= index (sr_sender s) <= 8 /\
  0 <= display_dotmask s < 2 ^ DIGITS /\
  (ser_timeout s <> 0 -> accum_ok s).

(* ------------------------------------------------------------------ *)
(** ** Groups and frames *)

(** The 5-bit group of a digit and its decimal point flag. *)
Definition group_of (d : Z) (dot : bool) : Z := d + (if dot then 16 else 0).

(** The state right after the fifth bit of a group was stored: the
    accumulator holds the group, the position is 5 and the watchdog was
    re-armed. *)
Definition group_taken (g : Z) (s : State) : State :=
  set_ser_timeout MAX_SER_CYCLES_BEFORE_TIMEOUT
    (set_ser_input_pos 5 (set_ser_input g s)).

(** Clearing the accumulator after [push_digit]. *)
Definition group_flushed (s : State) : State :=
  set_ser_input_pos 0 (set_ser_input 0 s).

(** The number of bits a frame in progress has accounted for. *)
Definition bits_taken (s : State) : Z := 5 * digit_count s + ser_input_pos s.

(** The bits of a frame of four groups as they travel: first group first,
    each group least significant bit first. *)
Definition frame_bits (groups : list Z) : list bool :=
  concat (map lsb_first groups).

(** A state with the decimal points blanked out: what is left is everything
    the unit holds besides [display_dotmask]. *)
Definition dots_erased (s : State) : State := set_display_dotmask 0 s.

Definition flow_dots_erased (f : Flow) : Flow :=
  match f with
  | Continue s => Continue (dots_erased s)
  | Returned s => Returned (dots_erased s)
  end.

(* ================================================================== *)
(** * Theorems *)

(* ------------------------------------------------------------------ *)
(** * Bit-level facts *)

Lemma land_one_bit (d i : Z) :
  0 <= i ->
  Z.land d (Z.shiftl 1 i) = if Z.testbit d i then 2 ^ i else 0.
Proof.
  intros Hi. rewrite Z.shiftl_1_l.
  apply Z.bits_inj'. intros n Hn.
  rewrite Z.land_spec, Z.pow2_bits_eqb by assumption.
  destruct (Z.eqb_spec i n) as [->|Hne].
  - destruct (Z.testbit d n); simpl.
    + now rewrite Z.pow2_bits_true.
    + now rewrite Z.bits_0.
  - rewrite andb_false_r.
    destruct (Z.testbit d i).
    + rewrite Z.pow2_bits_false; auto.
    + now rewrite Z.bits_0.
Qed.

Lemma mask_test_gtb (d i : Z) :
  0 <= i -> (Z.land d (Z.shiftl 1 i) >? 0) = Z.testbit d i.
Proof.
  intros Hi. rewrite land_one_bit by assumption.
  destruct (Z.testbit d i).
  - apply Z.gtb_lt. apply Z.pow_pos_nonneg; lia.
  - reflexivity.
Qed.

Lemma mask_test_nonzero (d i : Z) :
  0 <= i -> negb (Z.land d (Z.shiftl 1 i) =? 0) = Z.testbit d i.
Proof.
  intros Hi. rewrite land_one_bit by assumption.
  destruct (Z.testbit d i); [|reflexivity].
  assert (0 < 2 ^ i) by (apply Z.pow_pos_nonneg; lia).
  destruct (Z.eqb_spec (2 ^ i) 0); [lia | reflexivity].
Qed.

Lemma u16_testbit (d j : Z) :
  0 <= j < 16 -> Z.testbit (u16 d) j = Z.testbit d j.
Proof.
  intros Hj. unfold u16. change 65536 with (2 ^ 16).
  apply Z.mod_pow2_bits_low. lia.
Qed.

Lemma u16_range (d : Z) : 0 <= u16 d < 65536.
Proof. unfold u16. apply Z.mod_pos_bound. lia. Qed.

Lemma set_bit_testbit (d w j : Z) :
  0 <= w -> 0 <= j ->
  Z.testbit (Z.lor d (Z.shiftl 1 w)) j = Z.testbit d j || (w =? j).
Proof.
  intros Hw Hj. rewrite Z.lor_spec, Z.shiftl_1_l, Z.pow2_bits_eqb by assumption.
  reflexivity.
Qed.

Lemma clear_bit_testbit (d w j : Z) :
  0 <= w -> 0 <= j ->
  Z.testbit (Z.land d (Z.lnot (Z.shiftl 1 w))) j = Z.testbit d j && negb (w =? j).
Proof.
  intros Hw Hj.
  rewrite Z.land_spec, Z.lnot_spec, Z.shiftl_1_l, Z.pow2_bits_eqb by assumption.
  reflexivity.
Qed.

(* ------------------------------------------------------------------ *)
(** * The bit queue *)

Lemma advance_index_mod (i : Z) :
  0 <= i < 16 -> advance_index i = (i + 1) mod 16.
Proof.
  intros Hi. unfold advance_index, u8.
  rewrite (Z.mod_small (i + 1) 256) by lia.
  destruct (Z.eqb_spec (i + 1) 16) as [E|E].
  - rewrite E. reflexivity.
  - rewrite Z.mod_small; lia.
Qed.

Lemma advance_index_range (i : Z) :
  0 <= i < 16 -> 0 <= advance_index i < 16.
Proof.
  intros Hi. rewrite advance_index_mod by assumption.
  apply Z.mod_pos_bound. lia.
Qed.

Lemma write_testbit (b : bool) (q : SerialQueue) (j : Z) :
  queue_wf q -> 0 <= j < 16 ->
  Z.testbit (data (serial_queue_write b q)) j =
  if j =? write_index q then b else Z.testbit (data q) j.
Proof.
  intros (Hd & Hw & Hr) Hj. unfold serial_queue_write; simpl.
  rewrite u16_testbit by assumption.
  destruct b.
  - rewrite set_bit_testbit by lia. rewrite (Z.eqb_sym j).
    destruct (write_index q =? j); [apply orb_true_r | apply orb_false_r].
  - rewrite clear_bit_testbit by lia. rewrite (Z.eqb_sym j).
    destruct (write_index q =? j); [apply andb_false_r | apply andb_true_r].
Qed.

Lemma write_wf (b : bool) (q : SerialQueue) :
  queue_wf q -> queue_wf (serial_queue_write b q).
Proof.
  intros (Hd & Hw & Hr). unfold queue_wf, serial_queue_write; simpl.
  split; [apply u16_range|]. split; [apply advance_index_range|]; assumption.
Qed.

Lemma queue_length_range (q : SerialQueue) : 0 <= queue_length q < 16.
Proof. unfold queue_length. apply Z.mod_pos_bound. lia. Qed.

Lemma write_length (b : bool) (q : SerialQueue) :
  queue_wf q -> queue_length q < 15 ->
  queue_length (serial_queue_write b q) = queue_length q + 1.
Proof.
  intros (Hd & Hw & Hr) Hl. unfold queue_length in *; simpl.
  rewrite advance_index_mod by assumption.
  revert Hl. 
  Z.to_euclidean_division_equations. lia.
Qed.

Lemma slot_write_index (q : SerialQueue) :
  queue_wf q ->
  slot q (Z.to_nat (queue_length q)) = write_index q.
Proof.
  intros (Hd & Hw & Hr). unfold slot, queue_length.
  rewrite Z2Nat.id by (apply Z.mod_pos_bound; lia).
  Z.to_euclidean_division_equations. lia.
Qed.

Lemma slot_not_write_index (q : SerialQueue) (i : nat) :
  queue_wf q -> (i < Z.to_nat (queue_length q))%nat ->
  slot q i <> write_index q.
Proof.
  intros (Hd & Hw & Hr) Hi. unfold slot, queue_length in *.
  assert (Z.of_nat i < (write_index q - read_index q) mod 16) by lia.
  clear Hi. revert H. Z.to_euclidean_division_equations. lia.
Qed.

Lemma slot_range (q : SerialQueue) (i : nat) : 0 <= slot q i < 16.
Proof. unfold slot. apply Z.mod_pos_bound. lia. Qed.

(** Writing appends to the contents, as long as fewer than 15 bits are
    queued. *)
Lemma write_contents (b : bool) (q : SerialQueue) :
  queue_wf q -> queue_length q < 15 ->
  queue_contents (serial_queue_write b q) = queue_contents q ++ [b].
Proof.
  intros Hwf Hl. unfold queue_contents.
  rewrite write_length by assumption.
  pose proof (queue_length_range q) as Hr.
  rewrite Z2Nat.inj_add by lia. change (Z.to_nat 1) with 1%nat.
  rewrite seq_app, map_app. cbn [seq map Nat.add]. f_equal.
  - apply map_ext_in. intros i Hi. apply in_seq in Hi.
    change (slot (serial_queue_write b q) i) with (slot q i).
    rewrite write_testbit by (auto using slot_range).
    destruct (Z.eqb_spec (slot q i) (write_index q)) as [E|E]; [|reflexivity].
    exfalso. apply (slot_not_write_index q i); [assumption | lia | assumption].
  - f_equal. change (slot (serial_queue_write b q) ?i) with (slot q i).
    rewrite write_testbit by (auto using slot_range).
    rewrite slot_write_index by assumption. now rewrite Z.eqb_refl.
Qed.

Lemma read_empty (q : SerialQueue) :
  queue_wf q -> queue_contents q = [] -> serial_queue_read q = None.
Proof.
  intros (Hd & Hw & Hr) Hc. unfold serial_queue_read.
  destruct (Z.eqb_spec (read_index q) (write_index q)) as [E|E]; [reflexivity|].
  exfalso. unfold queue_contents in Hc.
  assert (0 < queue_length q).
  { unfold queue_length. Z.to_euclidean_division_equations. lia. }
  destruct (Z.to_nat (queue_length q)) eqn:En; [lia | discriminate].
Qed.

Lemma slot_zero (q : SerialQueue) :
  queue_wf q -> slot q 0 = read_index q.
Proof.
  intros (Hd & Hw & Hr). unfold slot. simpl. rewrite Z.add_0_r.
  apply Z.mod_small. assumption.
Qed.

Lemma read_contents (q : SerialQueue) (b : bool) (l : list bool) :
  queue_wf q -> queue_contents q = b :: l ->
  exists q', serial_queue_read q = Some (b, q') /\
             queue_wf q' /\ queue_contents q' = l.
Proof.
  intros Hwf Hc. pose proof Hwf as (Hd & Hw & Hr). unfold serial_queue_read.
  destruct (Z.eqb_spec (read_index q) (write_index q)) as [E|E].
  - exfalso. unfold queue_contents, queue_length in Hc.
    rewrite E, Z.sub_diag in Hc. discriminate.
  - assert (Hlen : 0 < queue_length q).
    { unfold queue_length. Z.to_euclidean_division_equations. lia. }
    set (q' := mkSerialQueue _ _ _).
    assert (Hl' : queue_length q' = queue_length q - 1).
    { unfold queue_length, q'; simpl. rewrite advance_index_mod by assumption.
      unfold queue_length in Hlen. revert Hlen.
      Z.to_euclidean_division_equations. lia. }
    unfold queue_contents in Hc.
    destruct (Z.to_nat (queue_length q)) as [|n] eqn:En; [lia|].
    cbn [seq map] in Hc. injection Hc as Hb Hc.
    rewrite slot_zero in Hb by assumption.
    exists q'. rewrite mask_test_gtb, Hb by lia.
    split; [reflexivity|]. split.
    + unfold queue_wf, q'; simpl. auto using advance_index_range.
    + unfold queue_contents. rewrite Hl'.
      replace (Z.to_nat (queue_length q - 1)) with n by lia.
      rewrite <- Hc, <- seq_shift, map_map.
      apply map_ext. intros i. f_equal.
      unfold slot, q'; cbn [read_index data].
      rewrite advance_index_mod by assumption.
      rewrite Nat2Z.inj_succ. Z.to_euclidean_division_equations. lia.
Qed.

Lemma write_bits_app (l1 l2 : list bool) (q : SerialQueue) :
  write_bits (l1 ++ l2) q = write_bits l2 (write_bits l1 q).
Proof. unfold write_bits. apply fold_left_app. Qed.

Lemma write_bits_contents (bits : list bool) :
  forall q,
    queue_wf q -> queue_length q + Z.of_nat (length bits) <= 15 ->
    queue_wf (write_bits bits q) /\
    queue_contents (write_bits bits q) = queue_contents q ++ bits.
Proof.
  induction bits as [|b bits IH]; intros q Hwf Hlen.
  - simpl. now rewrite app_nil_r.
  - cbn [length] in Hlen. rewrite Nat2Z.inj_succ in Hlen.
    change (write_bits (b :: bits) q)
      with (write_bits bits (serial_queue_write b q)).
    destruct (IH (serial_queue_write b q)) as [Hwf' Hc].
    + now apply write_wf.
    + rewrite write_length by (assumption || lia). lia.
    + split; [assumption|].
      rewrite Hc, write_contents by (assumption || lia).
      now rewrite <- app_assoc.
Qed.

Lemma read_bits_contents (l : list bool) :
  forall q,
    queue_wf q -> queue_contents q = l ->
    exists q', read_bits (length l) q = Some (l, q') /\
               queue_wf q' /\ queue_contents q' = [].
Proof.
  induction l as [|b l IH]; intros q Hwf Hc.
  - exists q. simpl. auto.
  - destruct (read_contents q b l Hwf Hc) as (q1 & Hr & Hwf1 & Hc1).
    destruct (IH q1 Hwf1 Hc1) as (q2 & Hr2 & Hwf2 & Hc2).
    exists q2. cbn [length read_bits]. rewrite Hr, Hr2. auto.
Qed.

Lemma init_wf : queue_wf serial_queue_init.
Proof. unfold queue_wf; simpl; lia. Qed.

(** C6.  From a reset queue, any sequence of at most 15 bits written with
    [serial_queue_write] is read back by as many calls of
    [serial_queue_read], bit for bit and in the same order; the read after
    that finds the queue empty. *)
Theorem serial_queue_roundtrip (bits : list bool) :
  (length bits <= 15)%nat ->
  exists q',
    read_bits (length bits) (write_bits bits serial_queue_init) = Some (bits, q') /\
    serial_queue_read q' = None.
Proof.
  intros Hlen.
  destruct (write_bits_contents bits serial_queue_init init_wf) as [Hwf Hc].
  - change (queue_length serial_queue_init) with 0. lia.
  - change (queue_contents serial_queue_init) with (@nil bool) in Hc.
    simpl in Hc.
    destruct (read_bits_contents bits _ Hwf Hc) as (q' & Hr & Hwf' & Hc').
    exists q'. split; [assumption|]. now apply read_empty.
Qed.

Lemma serial_queue_roundtrip_witness :
  exists q',
    read_bits 5 (write_bits [true; false; false; true; true] serial_queue_init)
    = Some ([true; false; false; true; true], q') /\
    serial_queue_read q' = None.
Proof.
  apply (serial_queue_roundtrip [true; false; false; true; true]).
  simpl. lia.
Defined.

(** Sixteen writes bring the write index back to where it started. *)
Lemma write_bits_indices (bits : list bool) :
  forall q,
    queue_wf q ->
    queue_wf (write_bits bits q) /\
    read_index (write_bits bits q) = read_index q /\
    write_index (write_bits bits q) =
      (write_index q + Z.of_nat (length bits)) mod 16.
Proof.
  induction bits as [|b bits IH]; intros q Hwf.
  - pose proof Hwf as (_ & Hw & _). simpl. rewrite Z.add_0_r.
    rewrite Z.mod_small by assumption. auto.
  - change (write_bits (b :: bits) q)
      with (write_bits bits (serial_queue_write b q)).
    destruct (IH (serial_queue_write b q) (write_wf b q Hwf)) as (H1 & H2 & H3).
    split; [assumption|]. split; [now rewrite H2|].
    rewrite H3. cbn [serial_queue_write write_index length].
    destruct Hwf as (_ & Hw & _).
    rewrite advance_index_mod, Nat2Z.inj_succ by assumption.
    Z.to_euclidean_division_equations. lia.
Qed.

(** C3 (amended).  Seventeen writes to a reset queue with no read in between
    leave exactly one bit readable, the seventeenth: the first read returns
    it and the next read finds the queue empty. *)
Theorem serial_queue_overflow (front : list bool) (b17 : bool) :
  length front = 16%nat ->
  exists q',
    serial_queue_read (write_bits (front ++ [b17]) serial_queue_init)
    = Some (b17, q') /\
    serial_queue_read q' = None.
Proof.
  intros Hlen. rewrite write_bits_app.
  destruct (write_bits_indices front serial_queue_init init_wf) as (Hwf & Hr & Hw).
  rewrite Hlen in Hw. change ((write_index serial_queue_init + Z.of_nat 16) mod 16) with 0 in Hw.
  change (read_index serial_queue_init) with 0 in Hr.
  set (q := write_bits front serial_queue_init) in *.
  change (write_bits [b17] q) with (serial_queue_write b17 q).
  unfold serial_queue_read at 1.
  cbn [serial_queue_write read_index write_index data].
  rewrite Hr, Hw. change (0 =? advance_index 0) with false. cbv iota.
  eexists. split.
  - f_equal. f_equal.
    rewrite mask_test_gtb by lia.
    pose proof (write_testbit b17 q 0 Hwf) as Ht.
    cbn [serial_queue_write data] in Ht. rewrite Hw in Ht.
    rewrite Ht by lia. reflexivity.
  - reflexivity.
Qed.

Lemma serial_queue_overflow_witness :
  exists q',
    serial_queue_read
      (write_bits (repeat true 16 ++ [false]) serial_queue_init)
    = Some (false, q') /\
    serial_queue_read q' = None.
Proof.
  apply (serial_queue_overflow (repeat true 16) false). reflexivity.
Defined.

(** C3 as stated fails: after seventeen writes (sixteen ones, then a zero)
    the first read returns the seventeenth bit, not the second, and the next
    read already reports an empty queue, so bits 2 to 17 cannot be read
    back. *)
Lemma serial_queue_overflow_counterexample :
  let bits := repeat true 16 ++ [false] in
  let q := write_bits bits serial_queue_init in
  (exists q1, serial_queue_read q = Some (false, q1) /\
              serial_queue_read q1 = None) /\
  ~ (exists q', read_bits 16 q = Some (tl bits, q')).
Proof.
  cbv zeta. split.
  - eexists. split; reflexivity.
  - intros (q' & H). vm_compute in H. discriminate.
Qed.

(* ------------------------------------------------------------------ *)
(** * The shift register sender *)

Lemma sr_sender_run_app (n m : nat) :
  forall s,
    sr_sender_run (n + m) s =
    let '(calls1, s1) := sr_sender_run n s in
    let '(calls2, s2) := sr_sender_run m s1 in
    (calls1 ++ calls2, s2).
Proof.
  induction n as [|n IH]; intros s.
  - simpl. now destruct (sr_sender_run m s) as [calls s'].
  - cbn [Nat.add sr_sender_run].
    destruct (sr_sender_step s) as [[st ops] s1].
    rewrite IH.
    destruct (sr_sender_run n s1) as [calls1 s2].
    destruct (sr_sender_run m s2) as [calls2 s3].
    reflexivity.
Qed.

(** The two calls that send bit [7 - i], as the code performs them. *)
Lemma sr_sender_bit (v i : Z) :
  0 <= i < 8 ->
  sr_sender_run 2 (mkSRValueSender v i false) =
  (bit_calls v i, mkSRValueSender v (i + 1) false).
Proof.
  intros Hi. assert (E : (i <? 8) = true) by (apply Z.ltb_lt; lia).
  unfold sr_sender_run, sr_sender_step. cbn [index going_high val].
  rewrite E. cbv iota. cbn [index going_high val]. rewrite E. cbv iota.
  rewrite mask_test_nonzero by lia.
  unfold u8. rewrite Z.mod_small by lia. reflexivity.
Qed.

Lemma sr_sender_finished (n : nat) (s : SRValueSender) :
  index s = 8 ->
  sr_sender_run n s = (repeat (SRValueSenderStatus_Finished, []) n, s).
Proof.
  intros Hi. induction n as [|n IH]; [reflexivity|].
  cbn [sr_sender_run]. unfold sr_sender_step. rewrite Hi.
  change (8 <? 8) with false. cbv iota. rewrite IH. reflexivity.
Qed.

(** The sixteen calls after [init_sr_sender b], spelled out. *)
Lemma sr_sender_full (b : Z) :
  sr_sender_run 16 (init_sr_sender b) =
  (flat_map (fun k => bit_calls b (Z.of_nat k)) (seq 0 8),
   mkSRValueSender b 8 false).
Proof.
  unfold init_sr_sender.
  change 16%nat with (2 + (2 + (2 + (2 + (2 + (2 + (2 + 2)))))))%nat.
  repeat (rewrite sr_sender_run_app; rewrite sr_sender_bit by lia;
          cbn [Z.add Pos.add Pos.succ]).
  rewrite sr_sender_bit by lia. reflexivity.
Qed.

(** C2 (amended).  After [init_sr_sender b], call 1 returns Beginning, calls
    2 to 15 return Middle, call 16 returns Last, and call 17 and every later
    call returns Finished: sixteen calls transmit the byte and the
    seventeenth is the first to report Finished. *)
Theorem sr_sender_status_sequence (b : Z) :
  status_of_call b 1 = SRValueSenderStatus_Beginning /\
  (forall k, (2 <= k <= 15)%nat ->
             status_of_call b k = SRValueSenderStatus_Middle) /\
  status_of_call b 16 = SRValueSenderStatus_Last /\
  (forall k, (17 <= k)%nat ->
             status_of_call b k = SRValueSenderStatus_Finished).
Proof.
  split; [reflexivity|]. split; [|split].
  - intros k Hk.
    do 16 (destruct k as [|k]; [try lia; reflexivity|]). lia.
  - reflexivity.
  - intros k Hk. unfold status_of_call.
    replace k with (16 + (k - 16))%nat by lia.
    rewrite sr_sender_run_app, sr_sender_full.
    rewrite sr_sender_finished by reflexivity.
    destruct (k - 16)%nat as [|m] eqn:E; [lia|].
    cbn [repeat fst]. now rewrite repeat_cons, app_assoc, last_last.
Qed.

Lemma sr_sender_status_sequence_witness :
  status_of_call 165 9 = SRValueSenderStatus_Middle /\
  status_of_call 165 20 = SRValueSenderStatus_Finished.
Proof.
  destruct (sr_sender_status_sequence 165) as (_ & Hmid & _ & Hfin).
  split; [apply Hmid | apply Hfin]; lia.
Defined.

(** C2 as stated fails: already for the byte 0 the fifteenth call returns
    Middle (the clock-low half of the last bit), and the sixteenth returns
    Last, not Finished. *)
Lemma sr_sender_status_counterexample :
  ~ (forall b, 0 <= b < 256 ->
       status_of_call b 1 = SRValueSenderStatus_Beginning /\
       (forall k, (2 <= k <= 14)%nat ->
                  status_of_call b k = SRValueSenderStatus_Middle) /\
       status_of_call b 15 = SRValueSenderStatus_Last /\
       (forall k, (16 <= k)%nat ->
                  status_of_call b k = SRValueSenderStatus_Finished)).
Proof.
  intros H. destruct (H 0 ltac:(lia)) as (_ & _ & H15 & _).
  vm_compute in H15. discriminate.
Qed.

(** C8.  Over the sixteen calls after [init_sr_sender b], for k = 0..7 in
    turn, one call drives the clock low and the next sets the data pin to bit
    [7 - k] of [b] and drives the clock high.  So the data pin receives the
    bits of [b] most significant first, one per clock-high call, and no call
    after the sixteenth touches a pin. *)
Theorem sr_sender_msb_first (b : Z) :
  let '(calls, s) := sr_sender_run 16 (init_sr_sender b) in
  ops_by_call calls =
    flat_map (fun k => [[pinlow SRCLK];
                        [pinset SER (Z.testbit b (7 - Z.of_nat k));
                         pinhigh SRCLK]]) (seq 0 8) /\
  ser_writes (ops_of calls) =
    map (fun k => Z.testbit b (7 - Z.of_nat k)) (seq 0 8) /\
  (forall n, ops_of (fst (sr_sender_run n s)) = []).
Proof.
  rewrite sr_sender_full. split; [reflexivity|]. split; [reflexivity|].
  intros n. rewrite sr_sender_finished by reflexivity.
  cbn [fst]. induction n as [|n IH]; [reflexivity | exact IH].
Qed.

(* ------------------------------------------------------------------ *)
(** * The glyph matcher *)

(** [glyph_matches] against the table, as a boolean. *)
Lemma glyph_matches_table_bool (g d : Z) :
  0 <= g <= 14 -> 0 <= d <= 9 ->
  glyph_matches g d = (g =? d) || (d =? 8) || existsb (Z.eqb d) (glyph_table g).
Proof.
  intros Hg Hd.
  assert (Eg : g = 0 \/ g = 1 \/ g = 2 \/ g = 3 \/ g = 4 \/ g = 5 \/ g = 6 \/
               g = 7 \/ g = 8 \/ g = 9 \/ g = 10 \/ g = 11 \/ g = 12 \/
               g = 13 \/ g = 14) by lia.
  assert (Ed : d = 0 \/ d = 1 \/ d = 2 \/ d = 3 \/ d = 4 \/ d = 5 \/ d = 6 \/
               d = 7 \/ d = 8 \/ d = 9) by lia.
  clear Hg Hd.
  repeat (destruct Eg as [Eg|Eg]); subst g;
    repeat (destruct Ed as [Ed|Ed]); subst d; reflexivity.
Qed.

(** C5.  For glyphs 0..14 and digits 0..9, [glyph_matches] holds exactly
    when the glyph is the digit, or the digit is 8, or the digit is listed
    for the glyph in the table
    1:{0,3,4,7,9} 5:{6} 7:{0,3,9} 10:{2,6} 11:{3,5,6} 12:{4,9} 13:{5,6,9}
    14:{6}. *)
Theorem glyph_matches_table (g d : Z) :
  0 <= g <= 14 -> 0 <= d <= 9 ->
  glyph_matches g d = true <-> (g = d \/ d = 8 \/ In d (glyph_table g)).
Proof.
  intros Hg Hd. rewrite glyph_matches_table_bool by assumption.
  rewrite !orb_true_iff, existsb_exists, !Z.eqb_eq.
  split.
  - intros [[H|H]|(x & Hin & Hx)]; auto.
    apply Z.eqb_eq in Hx. subst x. auto.
  - intros [H|[H|H]]; auto.
    right. exists d. split; [assumption | apply Z.eqb_refl].
Qed.

Lemma glyph_matches_table_witness :
  glyph_matches 13 6 = true <-> (13 = 6 \/ 6 = 8 \/ In 6 (glyph_table 13)).
Proof. apply (glyph_matches_table 13 6); lia. Defined.

(** C9 (amended).  For every glyph above 15 and every digit 0..9,
    [glyph_matches] is false; for glyph 15 it is false for every digit
    except 8, where it is true. *)
Theorem glyph_matches_out_of_range (g d : Z) :
  15 <= g -> 0 <= d <= 9 ->
  glyph_matches g d = (g =? 15) && (d =? 8).
Proof.
  intros Hg Hd. unfold glyph_matches.
  assert (E : (g <? 10) = false) by (apply Z.ltb_ge; lia).
  rewrite E. cbn [andb].
  destruct (Z.eqb_spec g 15) as [->|Hne].
  - change (15 >? 15) with false. cbv iota. cbn [andb].
    destruct (d =? 8); reflexivity.
  - assert (E' : (g >? 15) = true) by (apply Z.gtb_lt; lia).
    rewrite E'. reflexivity.
Qed.

Lemma glyph_matches_out_of_range_witness :
  glyph_matches 200 8 = (200 =? 15) && (8 =? 8).
Proof. apply (glyph_matches_out_of_range 200 8); lia. Defined.

(** C9 as stated fails at glyph 15 and digit 8: the guard rejects only
    glyphs above 15, and digit 8 is accepted before the table is consulted. *)
Lemma glyph_matches_blank_counterexample :
  ~ (forall g d, ~ (0 <= g <= 14) -> 0 <= d <= 9 -> glyph_matches g d = false).
Proof.
  intros H. specialize (H 15 8 ltac:(lia) ltac:(lia)). discriminate.
Qed.

(* ------------------------------------------------------------------ *)
(** * Runs *)

Lemma run_app (fuel : nat) (l1 l2 : list Event) :
  forall s,
    run fuel (l1 ++ l2) s =
    match run fuel l1 s with
    | None => None
    | Some s' => run fuel l2 s'
    end.
Proof.
  induction l1 as [|e l1 IH]; intros s; [reflexivity|].
  cbn [app run]. destruct (step fuel e s); [apply IH | reflexivity].
Qed.

Lemma drain_empty (fuel : nat) (s : State) :
  read_index (serial_queue s) = write_index (serial_queue s) ->
  drain fuel s = Some (Continue s).
Proof.
  intros E. destruct fuel; cbn [drain]; unfold serial_queue_read;
    rewrite E, Z.eqb_refl; reflexivity.
Qed.

(* ------------------------------------------------------------------ *)
(** * The framing watchdog *)

Lemma awaiting_tick (r : Z) (s : State) :
  awaiting r s -> awaiting r (seg7multiplex_timer0_interrupt s).
Proof. intros H. exact H. Qed.

Lemma awaiting_loop_idle (fuel : nat) (r : Z) (s : State) :
  awaiting r s -> refresh_needed s = false ->
  exists s', seg7multiplex_loop fuel s = Some s' /\
             awaiting r s' /\ refresh_needed s' = false.
Proof.
  intros (Hm & Hq & Ht) Hr. unfold seg7multiplex_loop. rewrite Hm.
  destruct Ht as [[Ht ->]|(Ht & Hrange & Hv)].
  - rewrite Ht. cbn [Z.eqb].
    rewrite drain_empty by exact Hq.
    cbn [begin_input_mode refresh_needed set_ser_input set_ser_input_pos
         set_display_dotmask set_display_value set_digit_count
         set_ser_timeout set_input_mode].
    rewrite Hr. eexists. split; [reflexivity|].
    split; [|exact Hr].
    split; [reflexivity|]. split; [exact Hq|]. right.
    cbn. unfold MAX_SER_CYCLES_BEFORE_TIMEOUT. lia.
  - destruct (Z.eqb_spec (ser_timeout s) 0) as [E|E]; [lia|].
    rewrite drain_empty by exact Hq. rewrite Hr.
    eexists. split; [reflexivity|]. split; [|exact Hr].
    split; [exact Hm|]. split; [exact Hq|]. right. auto.
Qed.

Lemma awaiting_loop_ticked (fuel : nat) (r : Z) (s : State) :
  awaiting r s -> refresh_needed s = true ->
  exists s', seg7multiplex_loop fuel s = Some s' /\
             refresh_needed s' = false /\
             if r =? 1
             then input_mode s' = false /\ display_dotmask s' = 1 /\
                  display_value s' = 0
             else awaiting (r - 1) s'.
Proof.
  intros (Hm & Hq & Ht) Hr. unfold seg7multiplex_loop. rewrite Hm.
  destruct Ht as [[Ht ->]|(Ht & Hrange & Hv)].
  - rewrite Ht. cbn [Z.eqb].
    rewrite drain_empty by exact Hq.
    cbn [begin_input_mode refresh_needed set_ser_input set_ser_input_pos
         set_display_dotmask set_display_value set_digit_count
         set_ser_timeout set_input_mode].
    rewrite Hr. eexists. split; [reflexivity|].
    split; [reflexivity|]. cbn.
    split; [reflexivity|]. split; [exact Hq|]. right.
    unfold MAX_SER_CYCLES_BEFORE_TIMEOUT. repeat split; try reflexivity; lia.
  - destruct (Z.eqb_spec (ser_timeout s) 0) as [E|E]; [lia|].
    rewrite drain_empty by exact Hq. rewrite Hr.
    cbn [set_refresh_needed set_ser_timeout ser_timeout]. rewrite Ht.
    unfold MAX_SER_CYCLES_BEFORE_TIMEOUT in Hrange.
    assert (Hu : u8 (r - 1) = r - 1) by (unfold u8; apply Z.mod_small; lia).
    rewrite Hu.
    destruct (Z.eqb_spec r 1) as [->|Hne].
    + cbn [Z.sub Z.eqb Z.add Z.opp Z.pos_sub]. eexists. split; [reflexivity|].
      cbn. auto.
    + destruct (Z.eqb_spec (r - 1) 0) as [E'|E']; [lia|].
      eexists. split; [reflexivity|]. split; [reflexivity|].
      cbn. split; [exact Hm|]. split; [exact Hq|]. right.
      unfold MAX_SER_CYCLES_BEFORE_TIMEOUT. repeat split; try lia. exact Hv.
Qed.

(** While fewer ticked passes have gone by than the watchdog allows, the
    unit stays in input mode. *)
Lemma awaiting_run (fuel : nat) (evs : list Event) :
  forall r s,
    awaiting r s -> no_edge evs = true ->
    Z.of_nat (ticked_loops (refresh_needed s) evs) < r ->
    exists s', run fuel evs s = Some s' /\
               awaiting (r - Z.of_nat (ticked_loops (refresh_needed s) evs)) s' /\
               refresh_needed s' = pending_after (refresh_needed s) evs.
Proof.
  induction evs as [|e evs IH]; intros r s Hw Hne Hlt.
  - exists s. cbn. rewrite Z.sub_0_r. auto.
  - cbn [no_edge forallb] in Hne. apply andb_true_iff in Hne as [He Hne].
    destruct e as [b| |]; [discriminate He| |].
    + cbn [run step ticked_loops pending_after] in *.
      apply (IH r (seg7multiplex_timer0_interrupt s)); auto using awaiting_tick.
    + cbn [run step ticked_loops pending_after] in *.
      destruct (refresh_needed s) eqn:Hr.
      * destruct (awaiting_loop_ticked fuel r s Hw Hr) as (s1 & Hs1 & Hr1 & Hk).
        rewrite Hs1.
        destruct (Z.eqb_spec r 1) as [->|Hr1'].
        { exfalso. lia. }
        destruct (IH (r - 1) s1) as (s2 & Hs2 & Hw2 & Hr2); auto.
        { rewrite Hr1. lia. }
        exists s2. rewrite Hr1 in *. split; [assumption|].
        split; [|assumption].
        replace (r - Z.of_nat (1 + ticked_loops false evs))
          with (r - 1 - Z.of_nat (ticked_loops false evs)) by lia.
        assumption.
      * destruct (awaiting_loop_idle fuel r s Hw Hr) as (s1 & Hs1 & Hw1 & Hr1).
        rewrite Hs1.
        destruct (IH r s1) as (s2 & Hs2 & Hw2 & Hr2); auto.
        { rewrite Hr1. cbn [Nat.add] in Hlt. lia. }
        exists s2. rewrite Hr1 in *. auto.
Qed.

(** C7.  From display mode at rest, let the announce edge arrive and then
    only timer ticks and passes of the main loop, no data edge.  As long as
    fewer than three passes (MAX_SER_CYCLES_BEFORE_TIMEOUT) have found the
    refresh flag raised, the unit is in input mode; the pass that is the
    third to find it raised ends input mode, sets [display_dotmask] to
    exactly 1 and leaves [display_value] at 0. *)
Theorem timeout_recovery (fuel : nat) (s : State) (b : bool) (evs : list Event) :
  display_idle s ->
  no_edge evs = true ->
  (ticked_loops (refresh_needed s) evs < 3)%nat ->
  exists s1,
    run fuel (Edge b :: evs) s = Some s1 /\
    input_mode s1 = true /\
    (ticked_loops (refresh_needed s) evs = 2%nat ->
     pending_after (refresh_needed s) evs = true ->
     exists s2,
       run fuel (Edge b :: evs ++ [Loop]) s = Some s2 /\
       input_mode s2 = false /\
       display_dotmask s2 = 1 /\
       display_value s2 = 0).
Proof.
  intros (Hm & Ht & Hq) Hne Hticks.
  set (s0 := seg7multiplex_int0_interrupt b s).
  assert (Hs0 : s0 = set_input_mode true s).
  { unfold s0, seg7multiplex_int0_interrupt. now rewrite Hm. }
  assert (Hw : awaiting 3 s0).
  { rewrite Hs0. split; [reflexivity|]. split; [exact Hq|]. left. auto. }
  assert (Hr0 : refresh_needed s0 = refresh_needed s) by now rewrite Hs0.
  destruct (awaiting_run fuel evs 3 s0 Hw Hne) as (s1 & Hs1 & Hw1 & Hr1).
  { rewrite Hr0. lia. }
  rewrite Hr0 in Hw1, Hr1.
  exists s1. cbn [run step]. fold s0.
  split; [exact Hs1|]. split; [apply Hw1|].
  intros Htwo Hpend. rewrite Htwo in Hw1. rewrite Hpend in Hr1.
  change (3 - Z.of_nat 2) with 1 in Hw1.
  destruct (awaiting_loop_ticked fuel 1 s1 Hw1 Hr1) as (s2 & Hs2 & _ & Hk).
  exists s2. rewrite run_app, Hs1. cbn [run step]. rewrite Hs2.
  split; [reflexivity | exact Hk].
Qed.

Lemma timeout_recovery_witness :
  exists s1,
    run 16 (Edge true :: [Tick; Loop; Loop; Tick; Loop; Tick]) booted = Some s1 /\
    input_mode s1 = true /\
    exists s2,
      run 16 (Edge true :: [Tick; Loop; Loop; Tick; Loop; Tick] ++ [Loop]) booted
      = Some s2 /\
      input_mode s2 = false /\
      display_dotmask s2 = 1 /\
      display_value s2 = 0.
Proof.
  destruct (timeout_recovery 16 booted true [Tick; Loop; Loop; Tick; Loop; Tick])
    as (s1 & H1 & H2 & H3).
  - repeat split.
  - reflexivity.
  - cbn. lia.
  - exists s1. split; [exact H1|]. split; [exact H2|].
    apply H3; reflexivity.
Defined.

(* ------------------------------------------------------------------ *)
(** * The displayed value stays within [DIGITS] decimal digits *)

Lemma low_nibble_range (v : Z) : 0 <= Z.land v 15 < 16.
Proof.
  change 15 with (Z.ones 4). rewrite Z.land_ones by lia.
  apply Z.mod_pos_bound. reflexivity.
Qed.

(** Reduce the projections of a state that was built by setters. *)
Ltac fields :=
  cbn [refresh_needed input_mode ser_input ser_input_pos display_value
       display_dotmask digit_count ser_timeout current_glyph serial_queue
       sr_sender pin_trace
       set_refresh_needed set_input_mode set_ser_input set_ser_input_pos
       set_display_value set_display_dotmask set_digit_count set_ser_timeout
       set_current_glyph set_serial_queue set_sr_sender emit] in *.

Lemma int_pow10_digits (dc : Z) :
  0 <= dc < DIGITS ->
  int_pow10 dc = 10 ^ dc /\ 1 <= 10 ^ dc <= 1000 /\
  10 ^ (dc + 1) = 10 * 10 ^ dc.
Proof.
  unfold DIGITS. intros H.
  assert (E : dc = 0 \/ dc = 1 \/ dc = 2 \/ dc = 3) by lia.
  destruct E as [-> | [-> | [-> | ->]]]; vm_compute; intuition congruence.
Qed.

(** [push_digit] touches only the value, the dot mask and the digit count,
    and keeps the value within the digits counted. *)
Lemma push_digit_shape (v : Z) (s : State) :
  0 <= v -> 0 <= digit_count s < DIGITS ->
  0 <= display_value s < 10 ^ digit_count s ->
  exists dv dm dc,
    push_digit v s =
      mkState (refresh_needed s) (input_mode s) (ser_input s) (ser_input_pos s)
        dv dm dc (ser_timeout s) (current_glyph s) (serial_queue s)
        (sr_sender s) (pin_trace s) /\
    0 <= dc <= DIGITS /\ 0 <= dv < 10 ^ dc.
Proof.
  destruct s as [rn im si sp dv dm dc st cg q snd pt]. fields.
  intros Hv Hdc Hdv.
  destruct (int_pow10_digits dc Hdc) as (Epow & Hpow & Esucc).
  unfold DIGITS in *. unfold push_digit.
  set (dot := negb (Z.land v 16 =? 0)).
  set (value := if dot then Z.land v 15 else v).
  assert (Hvalue : 0 <= value).
  { unfold value. destruct dot; [apply low_nibble_range | assumption]. }
  clearbody value. clearbody dot.
  assert (Hinc : u8 (dc + 1) = dc + 1) by (apply Z.mod_small; lia).
  destruct dot; fields;
    (destruct (Z.geb_spec value 10) as [Hge|Hlt];
     [ do 3 eexists; split; [reflexivity|]; fields; split; [lia | exact Hdv]
     | destruct (Z.eqb_spec dc 0) as [E0|E0]; fields;
       do 3 eexists; (split; [reflexivity|]); fields;
       rewrite Hinc, Esucc, ?Epow;
       (split; [lia|]);
       [ subst dc; change (10 ^ 0) with 1; lia
       | assert (Hprod : 0 <= value * 10 ^ dc <= 9 * 10 ^ dc) by nia;
         unfold u32; rewrite (Z.mod_small (value * 10 ^ dc)) by lia;
         rewrite Z.mod_small by lia; lia ] ]).
Qed.

(** Case analysis on a condition that contains no other condition. *)
Ltac split_if :=
  match goal with
  | |- context [if ?c then _ else _] =>
      lazymatch c with
      | context [if _ then _ else _] => fail
      | _ => destruct c eqn:?
      end
  end.

(** What the loop body does to the fields outside the decoder. *)
Lemma drain_body_frame (flag : bool) (s : State) :
  match drain_body flag s with
  | Continue s' =>
      serial_queue s' = serial_queue s /\
      refresh_needed s' = refresh_needed s /\
      input_mode s' = input_mode s /\
      ser_timeout s' = MAX_SER_CYCLES_BEFORE_TIMEOUT
  | Returned s' =>
      input_mode s' = false /\ ser_timeout s' = 0 /\
      serial_queue s' = serial_queue_init
  end.
Proof.
  destruct s as [rn im si sp dv dm dc st cg q snd pt].
  unfold drain_body, push_digit, end_input_mode.
  destruct flag; fields;
    repeat (split_if; fields); auto.
Qed.


Lemma read_some_length (q q' : SerialQueue) (flag : bool) :
  queue_wf q -> serial_queue_read q = Some (flag, q') ->
  queue_wf q' /\ queue_length q' = queue_length q - 1 /\ 0 < queue_length q.
Proof.
  intros (Hd & Hw & Hr). unfold serial_queue_read.
  destruct (Z.eqb_spec (read_index q) (write_index q)) as [E|E]; [discriminate|].
  intros H. injection H as _ <-.
  unfold queue_wf, queue_length. cbn [data write_index read_index].
  pose proof (advance_index_range _ Hr).
  rewrite advance_index_mod by assumption.
  repeat split; try lia; Z.to_euclidean_division_equations; lia.
Qed.

Lemma frame_value_bound (s : State) :
  frame_ok s -> 0 <= display_value s < 10 ^ DIGITS.
Proof.
  intros (_ & Hdc & Hdv).
  destruct (int_pow10_digits _ Hdc) as (_ & Hpow & _).
  change (10 ^ DIGITS) with 10000. lia.
Qed.

Lemma drain_body_inv (flag : bool) (s : State) :
  frame_ok s -> queue_wf (serial_queue s) ->
  match drain_body flag s with
  | Continue s' =>
      frame_ok s' /\ serial_queue s' = serial_queue s /\
      refresh_needed s' = refresh_needed s
  | Returned s' =>
      queue_wf (serial_queue s') /\ 0 <= display_value s' < 10 ^ DIGITS /\
      ser_timeout s' = 0
  end.
Proof.
  intros (Hsi & Hdc & Hdv) Hq. unfold drain_body.
  set (s1 := if flag then set_ser_input _ s else s).
  assert (H1 : 0 <= ser_input s1 /\ digit_count s1 = digit_count s /\
               display_value s1 = display_value s /\
               serial_queue s1 = serial_queue s /\
               refresh_needed s1 = refresh_needed s).
  { unfold s1. destruct flag; fields; repeat split; try assumption.
    apply Z.mod_pos_bound. reflexivity. }
  clearbody s1. destruct H1 as (Hsi1 & Edc & Edv & Eq & Ern).
  set (s2 := set_ser_timeout _ (set_ser_input_pos _ s1)).
  destruct (ser_input_pos s2 =? 5).
  - destruct (push_digit_shape (ser_input s2) s2) as (dv & dm & dc & Ep & Hdc' & Hdv').
    + exact Hsi1.
    + unfold s2; fields. now rewrite Edc.
    + unfold s2; fields. now rewrite Edc, Edv.
    + rewrite Ep. fields.
      destruct (Z.eqb_spec dc DIGITS) as [E|E].
      * unfold end_input_mode. fields.
        split; [apply init_wf|]. split; [now rewrite <- E | reflexivity].
      * unfold frame_ok, s2. fields. rewrite Eq, Ern.
        repeat split; try lia.
  - unfold frame_ok, s2. fields. rewrite Edc, Edv, Eq, Ern.
    repeat split; try assumption; lia.
Qed.

(** With the indices in range, as many iterations as there are queued bits
    suffice for the [while] loop to come to an end. *)
Lemma drain_inv (fuel : nat) :
  forall s,
    queue_wf (serial_queue s) ->
    queue_length (serial_queue s) <= Z.of_nat fuel ->
    frame_ok s ->
    exists r, drain fuel s = Some r /\
      match r with
      | Continue s' =>
          queue_wf (serial_queue s') /\ frame_ok s' /\
          refresh_needed s' = refresh_needed s /\
          input_mode s' = input_mode s
      | Returned s' =>
          queue_wf (serial_queue s') /\ 0 <= display_value s' < 10 ^ DIGITS /\
          ser_timeout s' = 0 /\ input_mode s' = false /\
          serial_queue s' = serial_queue_init
      end.
Proof.
  induction fuel as [|fuel IH]; intros s Hq Hlen Hf.
  - cbn [drain].
    destruct (serial_queue_read (serial_queue s)) as [[flag q']|] eqn:Er.
    + destruct (read_some_length _ _ _ Hq Er) as (_ & _ & Hpos). simpl in Hlen. lia.
    + eexists. split; [reflexivity|]. cbv beta iota. auto.
  - cbn [drain].
    destruct (serial_queue_read (serial_queue s)) as [[flag q']|] eqn:Er.
    + destruct (read_some_length _ _ _ Hq Er) as (Hq' & Hlen' & _).
      pose proof (drain_body_inv flag (set_serial_queue q' s)) as Hb.
      pose proof (drain_body_frame flag (set_serial_queue q' s)) as Hfr.
      destruct (drain_body flag (set_serial_queue q' s)) as [s'|s'].
      * destruct Hb as (Hf' & Eq & Ern); [exact Hf | exact Hq' |].
        destruct Hfr as (_ & _ & Eim & _). fields.
        destruct (IH s') as (r & Hr & Hres).
        { now rewrite Eq. }
        { rewrite Eq, Hlen'. lia. }
        { exact Hf'. }
        exists r. split; [exact Hr|].
        destruct r; [rewrite <- Ern, <- Eim|]; exact Hres.
      * destruct Hb as (H1 & H2 & H3); [exact Hf | exact Hq' |].
        destruct Hfr as (H4 & H5).
        eexists. split; [reflexivity|].
        exact (conj H1 (conj H2 (conj H3 (conj H4 (proj2 H5))))).
    + eexists. split; [reflexivity|]. cbv beta iota. auto.
Qed.

Lemma loop_inv (fuel : nat) (s : State) :
  (15 <= fuel)%nat -> unit_inv s ->
  exists s', seg7multiplex_loop fuel s = Some s' /\ unit_inv s'.
Proof.
  intros Hfuel (Hq & Hdv & Hf & Hrest). unfold seg7multiplex_loop.
  destruct (input_mode s) eqn:Hm.
  - set (s1 := if ser_timeout s =? 0 then begin_input_mode s else s).
    assert (H1 : frame_ok s1 /\ serial_queue s1 = serial_queue s /\
                 input_mode s1 = true).
    { unfold s1. destruct (Z.eqb_spec (ser_timeout s) 0) as [E|E].
      - unfold begin_input_mode, frame_ok. fields.
        change (10 ^ 0) with 1. unfold DIGITS. repeat split; lia.
      - auto. }
    clearbody s1. destruct H1 as (Hf1 & Eq1 & Hm1).
    destruct (drain_inv fuel s1) as (r & Hr & Hres).
    { now rewrite Eq1. }
    { rewrite Eq1. pose proof (queue_length_range (serial_queue s)). lia. }
    { exact Hf1. }
    rewrite Hr. destruct r as [s2|s2].
    + destruct Hres as (Hq2 & Hf2 & _ & Hm2). rewrite Hm1 in Hm2.
      pose proof (frame_value_bound s2 Hf2) as Hb2.
      destruct (refresh_needed s2).
      * set (s3 := set_ser_timeout _ (set_refresh_needed false s2)).
        destruct (ser_timeout s3 =? 0).
        -- eexists. split; [reflexivity|].
           unfold unit_inv, end_input_mode, s3. fields.
           split; [apply init_wf|]. split; [exact Hb2|].
           split; [intros []; reflexivity | auto].
        -- eexists. split; [reflexivity|].
           unfold unit_inv, s3. fields.
           split; [exact Hq2|]. split; [exact Hb2|].
           split; [auto | congruence].
      * eexists. split; [reflexivity|]. unfold unit_inv.
        split; [exact Hq2|]. split; [exact Hb2|]. split; [auto | congruence].
    + destruct Hres as (Hq2 & Hb2 & Ht2 & Hm2 & Eq2).
      eexists. split; [reflexivity|]. unfold unit_inv.
      split; [exact Hq2|]. split; [exact Hb2|].
      split; [intros []; exact Ht2|]. intros _. rewrite Eq2. auto.
  - specialize (Hrest eq_refl). unfold perform_display_step.
    destruct (sr_sender_step (sr_sender s)) as [[st ops] snd'].
    destruct st; cbn [negb];
      try (eexists; split; [reflexivity|]; unfold unit_inv; fields; auto).
    destruct (refresh_needed _);
      eexists; (split; [reflexivity|]);
      unfold unit_inv, send_next_glyph; fields.
    + destruct (u8 (current_glyph s + 1) =? 15); fields; auto.
    + auto.
Qed.

Lemma step_inv (fuel : nat) (e : Event) (s : State) :
  (15 <= fuel)%nat -> unit_inv s ->
  exists s', step fuel e s = Some s' /\ unit_inv s'.
Proof.
  intros Hfuel Hinv. destruct e as [b| |].
  - eexists. split; [reflexivity|].
    destruct Hinv as (Hq & Hdv & Hf & Hrest).
    unfold seg7multiplex_int0_interrupt.
    destruct (input_mode s) eqn:Hm; cbn [negb]; unfold unit_inv; fields.
    + split; [now apply write_wf|]. split; [exact Hdv|].
      split; [exact Hf | congruence].
    + split; [exact Hq|]. split; [exact Hdv|].
      split; [exact Hf | discriminate].
  - eexists. split; [reflexivity|]. exact Hinv.
  - now apply loop_inv.
Qed.

Lemma run_inv (fuel : nat) (evs : list Event) :
  (15 <= fuel)%nat ->
  forall s, unit_inv s -> exists s', run fuel evs s = Some s' /\ unit_inv s'.
Proof.
  intros Hfuel. induction evs as [|e evs IH]; intros s Hinv.
  - exists s. auto.
  - destruct (step_inv fuel e s Hfuel Hinv) as (s1 & Hs1 & Hinv1).
    cbn [run]. rewrite Hs1. now apply IH.
Qed.

Lemma setup_inv (s0 : State) : unit_inv (seg7multiplex_setup s0).
Proof.
  unfold unit_inv, seg7multiplex_setup. fields.
  split; [apply init_wf|]. split; [unfold DIGITS; cbn; lia|].
  split; [intros []; reflexivity | auto].
Qed.

(** Whenever the unit is in display mode it is at rest: the watchdog is at
    zero and nothing is queued.  This is the state from which the frame and
    watchdog theorems start. *)
Lemma display_mode_at_rest (s0 : State) (fuel : nat) (evs : list Event) :
  (15 <= fuel)%nat ->
  exists s,
    run fuel evs (seg7multiplex_setup s0) = Some s /\
    queue_wf (serial_queue s) /\
    (input_mode s = false -> display_idle s).
Proof.
  intros Hfuel.
  destruct (run_inv fuel evs Hfuel _ (setup_inv s0))
    as (s & Hs & Hq & _ & _ & Hrest).
  exists s. split; [exact Hs|]. split; [exact Hq|].
  intros Hm. destruct (Hrest Hm). split; auto.
Qed.

(** C10.  In the 4-digit configuration, whatever was in memory before
    [seg7multiplex_setup] and whatever edges, ticks and passes of the main
    loop follow it, every pass of the loop comes to an end and
    [display_value] stays below 10000; narrowing it to the uint16_t
    parameter of [glyph_match_mask] therefore changes nothing. *)
Theorem display_value_bounded (s0 : State) (fuel : nat) (evs : list Event) :
  (15 <= fuel)%nat ->
  exists s,
    run fuel evs (seg7multiplex_setup s0) = Some s /\
    0 <= display_value s < 10000 /\
    u16 (display_value s) = display_value s /\
    (forall glyph,
       glyph_match_mask (u16 (display_value s)) glyph =
       glyph_match_mask (display_value s) glyph).
Proof.
  intros Hfuel.
  destruct (run_inv fuel evs Hfuel _ (setup_inv s0)) as (s & Hs & _ & Hdv & _).
  change (10 ^ DIGITS) with 10000 in Hdv.
  assert (E : u16 (display_value s) = display_value s)
    by (apply Z.mod_small; lia).
  exists s. rewrite E. auto.
Qed.

Lemma display_value_bounded_witness :
  exists s,
    run 16 [Edge true; Loop; Edge true; Edge false; Edge false; Edge true;
            Edge false; Loop; Tick; Loop]
        (seg7multiplex_setup power_on) = Some s /\
    0 <= display_value s < 10000 /\
    u16 (display_value s) = display_value s /\
    (forall glyph,
       glyph_match_mask (u16 (display_value s)) glyph =
       glyph_match_mask (display_value s) glyph).
Proof. apply (display_value_bounded power_on 16). lia. Defined.

(* ------------------------------------------------------------------ *)
(** * Decoding a frame, whatever the delivery schedule *)

Lemma feed_app (l1 l2 : list bool) :
  forall s,
    feed (l1 ++ l2) s =
    match feed l1 s with
    | Continue s' => feed l2 s'
    | Returned s' => Returned s'
    end.
Proof.
  induction l1 as [|b l1 IH]; intros s; [reflexivity|].
  cbn [app feed]. destruct (drain_body b s); [apply IH | reflexivity].
Qed.

(** The loop body reads and writes the decoder fields only. *)
Lemma drain_body_fields (flag : bool) (s t : State) :
  decoder_fields s = decoder_fields t ->
  match drain_body flag s, drain_body flag t with
  | Continue s', Continue t' => decoder_fields s' = decoder_fields t'
  | Returned s', Returned t' => decoder_fields s' = decoder_fields t'
  | _, _ => False
  end.
Proof.
  destruct s as [rn im si sp dv dm dc st cg q snd pt].
  destruct t as [rn' im' si' sp' dv' dm' dc' st' cg' q' snd' pt'].
  unfold decoder_fields. fields. intros E.
  injection E as -> -> -> -> -> ->.
  unfold drain_body, push_digit, end_input_mode.
  destruct flag; fields;
    repeat (split_if; fields); solve [reflexivity | congruence].
Qed.

Lemma feed_fields (l : list bool) :
  forall s t,
    decoder_fields s = decoder_fields t ->
    match feed l s, feed l t with
    | Continue s', Continue t' => decoder_fields s' = decoder_fields t'
    | Returned s', Returned t' => decoder_fields s' = decoder_fields t'
    | _, _ => False
    end.
Proof.
  induction l as [|b l IH]; intros s t E; [exact E|].
  cbn [feed]. pose proof (drain_body_fields b s t E) as Hb.
  destruct (drain_body b s) as [s1|s1], (drain_body b t) as [t1|t1];
    try contradiction; [now apply IH | exact Hb].
Qed.

Lemma queue_empty_length (q : SerialQueue) :
  queue_contents q = [] -> queue_length q = 0.
Proof.
  unfold queue_contents. intros H.
  pose proof (queue_length_range q).
  destruct (Z.to_nat (queue_length q)) eqn:E; [lia | discriminate].
Qed.

(** The [while] loop consumes exactly the queued bits, and does to the
    decoder fields what [feed] does on those bits. *)
Lemma drain_feed (l : list bool) :
  forall fuel s t,
    queue_wf (serial_queue s) ->
    queue_contents (serial_queue s) = l ->
    (length l <= fuel)%nat ->
    decoder_fields s = decoder_fields t ->
    exists r, drain fuel s = Some r /\
      match r, feed l t with
      | Continue s', Continue t' =>
          decoder_fields s' = decoder_fields t' /\
          queue_wf (serial_queue s') /\
          queue_contents (serial_queue s') = [] /\
          refresh_needed s' = refresh_needed s /\
          input_mode s' = input_mode s /\
          (ser_timeout s' = ser_timeout s \/
           ser_timeout s' = MAX_SER_CYCLES_BEFORE_TIMEOUT)
      | Returned s', Returned t' => decoder_fields s' = decoder_fields t'
      | _, _ => False
      end.
Proof.
  induction l as [|b l IH]; intros fuel s t Hwf Hc Hlen E.
  - exists (Continue s). split.
    + destruct fuel; cbn [drain]; now rewrite (read_empty _ Hwf Hc).
    + cbn [feed]. auto 10.
  - destruct (read_contents _ b l Hwf Hc) as (q1 & Hr & Hwf1 & Hc1).
    destruct fuel as [|fuel]; [cbn [length] in Hlen; lia|].
    cbn [drain feed]. rewrite Hr.
    pose proof (drain_body_fields b (set_serial_queue q1 s) t E) as Hb.
    pose proof (drain_body_frame b (set_serial_queue q1 s)) as Hf.
    destruct (drain_body b (set_serial_queue q1 s)) as [s1|s1],
             (drain_body b t) as [t1|t1]; try contradiction.
    + destruct Hf as (Eq & Ern & Eim & Est). fields.
      destruct (IH fuel s1 t1) as (r & Hdr & Hres).
      { now rewrite Eq. }
      { now rewrite Eq. }
      { cbn [length] in Hlen. lia. }
      { exact Hb. }
      exists r. split; [exact Hdr|].
      destruct r as [s2|s2], (feed l t1) as [t2|t2]; try contradiction;
        [|exact Hres].
      destruct Hres as (H1 & H2 & H3 & H4 & H5 & H6).
      rewrite Ern in H4. rewrite Eim in H5. rewrite Est in H6.
      refine (conj H1 (conj H2 (conj H3 (conj H4 (conj H5 _))))).
      right. destruct H6; assumption.
    + eexists. split; [reflexivity | exact Hb].
Qed.

Lemma run_edges (fuel : nat) (c : list bool) :
  forall s,
    input_mode s = true ->
    run fuel (map Edge c) s =
    Some (set_serial_queue (write_bits c (serial_queue s)) s).
Proof.
  induction c as [|b c IH]; intros s Hm.
  - destruct s; reflexivity.
  - cbn [map run step]. unfold seg7multiplex_int0_interrupt.
    rewrite Hm. cbn [negb]. rewrite IH by exact Hm.
    destruct s; reflexivity.
Qed.

(** One pass of the main loop inside a frame, with the bits [c] queued. *)
Lemma loop_feed (fuel : nat) (c : list bool) (s t : State) :
  input_mode s = true ->
  queue_wf (serial_queue s) ->
  queue_contents (serial_queue s) = c ->
  (length c <= fuel)%nat ->
  ((ser_timeout s = 0 /\
    decoder_fields (begin_input_mode s) = decoder_fields t) \/
   (ser_timeout s <> 0 /\ refresh_needed s = false /\
    decoder_fields s = decoder_fields t)) ->
  exists s', seg7multiplex_loop fuel s = Some s' /\
    match feed c t with
    | Continue t' => tracks s' t'
    | Returned t' => decoder_fields s' = decoder_fields t'
    end.
Proof.
  intros Hm Hwf Hc Hlen Hcase. unfold seg7multiplex_loop. rewrite Hm.
  set (s1 := if ser_timeout s =? 0 then begin_input_mode s else s).
  assert (H1 : serial_queue s1 = serial_queue s /\
               decoder_fields s1 = decoder_fields t /\
               input_mode s1 = true /\
               (ser_timeout s1 = MAX_SER_CYCLES_BEFORE_TIMEOUT \/
                ser_timeout s1 <> 0 /\ refresh_needed s1 = false)).
  { unfold s1. destruct Hcase as [(Ht & E)|(Ht & Hr & E)].
    - rewrite Ht. cbn [Z.eqb].
      refine (conj eq_refl (conj E (conj eq_refl (or_introl eq_refl)))).
    - destruct (Z.eqb_spec (ser_timeout s) 0); [contradiction|].
      refine (conj eq_refl (conj E (conj Hm (or_intror (conj Ht Hr))))). }
  clearbody s1. destruct H1 as (Eq1 & E1 & Hm1 & Ht1).
  destruct (drain_feed c fuel s1 t) as (r & Hdr & Hres);
    try assumption; try (now rewrite Eq1).
  rewrite Hdr.
  destruct r as [s2|s2], (feed c t) as [t2|t2]; try contradiction.
  - destruct Hres as (E2 & Hwf2 & Hc2 & Ern2 & Eim2 & Est2).
    assert (Ht2 : ser_timeout s2 = MAX_SER_CYCLES_BEFORE_TIMEOUT \/
                  ser_timeout s2 <> 0 /\ refresh_needed s2 = false).
    { destruct Est2 as [Est2|Est2]; [|now left].
      rewrite Est2, Ern2. exact Ht1. }
    assert (Hm2 : input_mode s2 = true) by congruence. clear Ht1 Est2.
    destruct (refresh_needed s2) eqn:Hr2.
    + destruct Ht2 as [Ht2|[_ Ht2]]; [|discriminate].
      fields. rewrite Ht2. cbn [Z.eqb u8 Z.sub Z.add Z.opp Z.pos_sub Z.modulo
        MAX_SER_CYCLES_BEFORE_TIMEOUT].
      change (u8 (MAX_SER_CYCLES_BEFORE_TIMEOUT - 1) =? 0) with false.
      cbv iota. eexists. split; [reflexivity|].
      unfold tracks. fields.
      refine (conj Hm2 (conj Hwf2 (conj Hc2 (or_intror _)))).
      split; [discriminate|]. split; [reflexivity | exact E2].
    + eexists. split; [reflexivity|].
      refine (conj Hm2 (conj Hwf2 (conj Hc2 (or_intror _)))).
      split; [|split; [exact Hr2 | exact E2]].
      destruct Ht2 as [Ht2|[Ht2 _]]; [rewrite Ht2; discriminate | exact Ht2].
  - eexists. split; [reflexivity | exact Hres].
Qed.

(** A chunk of edges followed by a pass of the main loop. *)
Lemma run_chunk (fuel : nat) (c : list bool) (s t : State) :
  tracks s t -> (length c <= 15)%nat -> (15 <= fuel)%nat ->
  exists s', run fuel (map Edge c ++ [Loop]) s = Some s' /\
    match feed c t with
    | Continue t' => tracks s' t'
    | Returned t' => decoder_fields s' = decoder_fields t'
    end.
Proof.
  intros (Hm & Hwf & Hc & Hcase) Hlen Hfuel.
  rewrite run_app, run_edges by exact Hm. cbn [run step].
  destruct (write_bits_contents c (serial_queue s) Hwf) as (Hwf' & Hc').
  { rewrite (queue_empty_length _ Hc). lia. }
  rewrite Hc in Hc'. cbn [app] in Hc'.
  destruct (loop_feed fuel c
              (set_serial_queue (write_bits c (serial_queue s)) s) t)
    as (s' & Hs' & Hres); try assumption; try lia.
  exists s'. rewrite Hs'. split; [reflexivity | exact Hres].
Qed.

Lemma run_chunks (fuel : nat) (chunks : list (list bool)) :
  forall s t t',
    tracks s t ->
    Forall (fun c => (length c <= 15)%nat) chunks -> (15 <= fuel)%nat ->
    feed (concat chunks) t = Continue t' ->
    exists s', run fuel (deliver chunks) s = Some s' /\ tracks s' t'.
Proof.
  induction chunks as [|c chunks IH]; intros s t t' Htr Hall Hfuel Hfeed.
  - cbn in Hfeed. injection Hfeed as <-. exists s. auto.
  - inversion Hall as [|? ? Hc Hcs]; subst.
    cbn [concat] in Hfeed. rewrite feed_app in Hfeed.
    destruct (run_chunk fuel c s t Htr Hc Hfuel) as (s1 & Hs1 & Hres).
    destruct (feed c t) as [t1|t1]; [|discriminate].
    destruct (IH s1 t1 t' Hres Hcs Hfuel Hfeed) as (s2 & Hs2 & Htr2).
    exists s2. cbn [deliver flat_map]. fold (deliver chunks).
    rewrite run_app, Hs1. auto.
Qed.

(** From display mode at rest: the announce edge, then the bits of a frame
    in chunks of at most 15, a pass of the main loop after each chunk.  If
    [feed] completes the frame on the last chunk and not before, the run
    ends with the decoder fields that [feed] computes. *)
Lemma decode_frame (fuel : nat) (s : State) (b : bool)
      (chunks : list (list bool)) (c : list bool) (t1 t2 : State) :
  display_idle s -> queue_wf (serial_queue s) ->
  Forall (fun c => (length c <= 15)%nat) (chunks ++ [c]) ->
  (15 <= fuel)%nat ->
  feed (concat chunks) (begin_input_mode s) = Continue t1 ->
  feed c t1 = Returned t2 ->
  exists s', run fuel (Edge b :: deliver (chunks ++ [c])) s = Some s' /\
             decoder_fields s' = decoder_fields t2.
Proof.
  intros (Hm & Ht & Hq) Hwf Hall Hfuel Hfeed1 Hfeed2.
  apply Forall_app in Hall as [Hall Hc]. inversion Hc as [|? ? Hc' _]; subst.
  cbn [run step]. unfold seg7multiplex_int0_interrupt. rewrite Hm. cbn [negb].
  assert (Htr : tracks (set_input_mode true s) (begin_input_mode s)).
  { assert (Hc0 : queue_contents (serial_queue s) = []).
    { unfold queue_contents, queue_length. now rewrite Hq, Z.sub_diag. }
    refine (conj eq_refl (conj Hwf (conj Hc0 (or_introl (conj Ht eq_refl))))). }
  destruct (run_chunks fuel chunks _ _ t1 Htr Hall Hfuel Hfeed1)
    as (s1 & Hs1 & Htr1).
  destruct (run_chunk fuel c s1 t1 Htr1 Hc' Hfuel) as (s2 & Hs2 & Hres).
  rewrite Hfeed2 in Hres.
  exists s2. unfold deliver. rewrite flat_map_app. fold (deliver chunks).
  rewrite run_app, Hs1. cbn [flat_map]. rewrite app_nil_r. auto.
Qed.

(** Splitting a concrete frame in two: every proper prefix leaves the
    decoder going, and the rest completes the frame. *)
Ltac frame_witness :=
  lazymatch goal with
  | |- exists t1 t2, feed ?P ?s0 = Continue t1 /\ feed ?c t1 = Returned t2 /\ _ =>
      exists (flow_state (feed P s0)),
             (flow_state (feed c (flow_state (feed P s0))))
  end.

Ltac frame_parts :=
  frame_witness;
  split; [vm_compute; reflexivity | split; vm_compute; reflexivity].

Ltac frame_split P H s :=
  destruct s as [rn im si sp dv dm dc st cg q snd pt];
  repeat (destruct P as [|? P];
          [ cbn [app] in H; subst; frame_parts
          | cbn [app] in H; injection H as -> H ]);
  destruct P; [cbn [app] in H; subst; congruence | discriminate H].

Lemma frame_1234_lsb_first (P c : list bool) (s : State) :
  P ++ c = concat (map lsb_first [1; 2; 3; 4]) -> c <> [] ->
  exists t1 t2,
    feed P (begin_input_mode s) = Continue t1 /\
    feed c t1 = Returned t2 /\
    decoder_fields t2 = (false, 0, 0, 4321, 0, 4).
Proof.
  intros H Hc.
  let r := eval vm_compute in (concat (map lsb_first [1; 2; 3; 4])) in
  change (concat (map lsb_first [1; 2; 3; 4])) with r in H.
  frame_split P H s.
Qed.

Lemma frame_1234_msb_first (P c : list bool) (s : State) :
  P ++ c = concat (map msb_first [1; 2; 3; 4]) -> c <> [] ->
  exists t1 t2,
    feed P (begin_input_mode s) = Continue t1 /\
    feed c t1 = Returned t2 /\
    decoder_fields t2 = (false, 0, 0, 4880, 5, 4).
Proof.
  intros H Hc.
  let r := eval vm_compute in (concat (map msb_first [1; 2; 3; 4])) in
  change (concat (map msb_first [1; 2; 3; 4])) with r in H.
  frame_split P H s.
Qed.

(** C1 (amended).  4-digit configuration, display mode at rest.  After the
    announce edge, the digits 1, 2, 3, 4 arrive as four 5-bit groups with
    the dot flag clear, each group least significant bit first, in chunks of
    at most 15 bits with a pass of the main loop after each chunk.  The pass
    after the last bit ends with [display_value] = 4321 (the first digit
    received sits in the ones place), [digit_count] = 4, input mode left and
    no decimal point set. *)
Theorem decode_1234 (fuel : nat) (s : State) (b : bool)
        (chunks : list (list bool)) (c : list bool) :
  display_idle s -> queue_wf (serial_queue s) -> (15 <= fuel)%nat ->
  Forall (fun c => (length c <= 15)%nat) (chunks ++ [c]) ->
  c <> [] ->
  concat (chunks ++ [c]) = concat (map lsb_first [1; 2; 3; 4]) ->
  exists s',
    run fuel (Edge b :: deliver (chunks ++ [c])) s = Some s' /\
    display_value s' = 4321 /\
    digit_count s' = 4 /\
    input_mode s' = false /\
    display_dotmask s' = 0.
Proof.
  intros Hidle Hwf Hfuel Hall Hc Hbits.
  rewrite concat_app in Hbits. cbn [concat] in Hbits. rewrite app_nil_r in Hbits.
  destruct (frame_1234_lsb_first _ _ s Hbits Hc) as (t1 & t2 & H1 & H2 & E).
  destruct (decode_frame fuel s b chunks c t1 t2 Hidle Hwf Hall Hfuel H1 H2)
    as (s' & Hrun & E').
  exists s'. split; [exact Hrun|].
  rewrite E in E'. unfold decoder_fields in E'.
  injection E' as -> _ _ -> -> ->. auto.
Qed.

Lemma decode_1234_witness :
  exists s',
    run 16 (Edge true ::
            deliver ([[]; lsb_first 1; lsb_first 2; lsb_first 3] ++ [lsb_first 4]))
        booted = Some s' /\
    display_value s' = 4321 /\
    digit_count s' = 4 /\
    input_mode s' = false /\
    display_dotmask s' = 0.
Proof.
  apply (decode_1234 16 booted true
           [[]; lsb_first 1; lsb_first 2; lsb_first 3] (lsb_first 4)).
  - repeat split.
  - apply init_wf.
  - lia.
  - repeat constructor.
  - discriminate.
  - reflexivity.
Defined.

(** The same frame with every group sent in the order its numeral is
    written, whatever the schedule: the groups decode as 0 with dot, 8, 8
    with dot and 4. *)
Lemma decode_1234_written_order (fuel : nat) (s : State) (b : bool)
      (chunks : list (list bool)) (c : list bool) :
  display_idle s -> queue_wf (serial_queue s) -> (15 <= fuel)%nat ->
  Forall (fun c => (length c <= 15)%nat) (chunks ++ [c]) ->
  c <> [] ->
  concat (chunks ++ [c]) = concat (map msb_first [1; 2; 3; 4]) ->
  exists s',
    run fuel (Edge b :: deliver (chunks ++ [c])) s = Some s' /\
    display_value s' = 4880 /\
    digit_count s' = 4 /\
    input_mode s' = false /\
    display_dotmask s' = 5.
Proof.
  intros Hidle Hwf Hfuel Hall Hc Hbits.
  rewrite concat_app in Hbits. cbn [concat] in Hbits. rewrite app_nil_r in Hbits.
  destruct (frame_1234_msb_first _ _ s Hbits Hc) as (t1 & t2 & H1 & H2 & E).
  destruct (decode_frame fuel s b chunks c t1 t2 Hidle Hwf Hall Hfuel H1 H2)
    as (s' & Hrun & E').
  exists s'. split; [exact Hrun|].
  rewrite E in E'. unfold decoder_fields in E'.
  injection E' as -> _ _ -> -> ->. auto.
Qed.

(** C1 as stated fails.  With the groups 00001, 00010, 00011, 00100
    delivered in the order written, the unit ends with [display_value] =
    4880 and dots on the first and third digit; with each group delivered
    least significant bit first it ends with 4321.  Neither is 1234. *)
Lemma decode_1234_counterexample :
  ~ (exists s',
       run 16 (Edge true :: deliver ([] :: map msb_first [1; 2; 3; 4])) booted
       = Some s' /\
       display_value s' = 1234 /\ digit_count s' = 4 /\
       input_mode s' = false /\ display_dotmask s' = 0) /\
  ~ (exists s',
       run 16 (Edge true :: deliver ([] :: map lsb_first [1; 2; 3; 4])) booted
       = Some s' /\
       display_value s' = 1234 /\ digit_count s' = 4 /\
       input_mode s' = false /\ display_dotmask s' = 0).
Proof.
  split; intros (s' & Hrun & Hv & _); vm_compute in Hrun;
    injection Hrun as <-; discriminate Hv.
Qed.

(* ------------------------------------------------------------------ *)
(** * Invalid digits *)

(** A group with the dot flag clear and a value of 10 or more changes
    nothing at all. *)
Lemma push_digit_invalid_undotted (v : Z) (s : State) :
  Z.land v 16 = 0 -> 10 <= v -> push_digit v s = s.
Proof.
  intros Hdot Hv. unfold push_digit. rewrite Hdot. cbn [Z.eqb negb].
  destruct (Z.geb_spec v 10); [reflexivity | lia].
Qed.

(** With the dot flag set, the value and the digit count are still left
    alone, but the dot mask is not. *)
Lemma push_digit_invalid_dotted (v : Z) (s : State) :
  Z.land v 16 <> 0 -> 10 <= Z.land v 15 ->
  display_value (push_digit v s) = display_value s /\
  digit_count (push_digit v s) = digit_count s /\
  display_dotmask (push_digit v s) =
    u8 (Z.lor (display_dotmask s) (Z.shiftl 1 (digit_count s))).
Proof.
  intros Hdot Hv. unfold push_digit.
  destruct (Z.eqb_spec (Z.land v 16) 0); [contradiction|]. cbn [negb].
  destruct (Z.geb_spec (Z.land v 15) 10); [|lia].
  destruct s; auto.
Qed.

(** C4.  The group 11011 (dot flag set, value field 11) reaches [push_digit]
    right after input mode was set up: the digit is dropped, the value and
    the digit count stay, but [display_dotmask] goes from 0 to 1.  The four
    valid digits 1, 2, 3, 4 that follow, all with the dot flag clear, then
    end the frame with a decimal point lit on the first digit. *)
Theorem push_digit_invalid_leaves_dot :
  let s := begin_input_mode booted in
  (display_dotmask s = 0 /\
   display_dotmask (push_digit 27 s) = 1 /\
   display_value (push_digit 27 s) = display_value s /\
   digit_count (push_digit 27 s) = digit_count s) /\
  exists s',
    run 16 (Edge true :: deliver ([] :: map lsb_first [27; 1; 2; 3; 4])) booted
    = Some s' /\
    display_value s' = 4321 /\ digit_count s' = 4 /\ display_dotmask s' = 1.
Proof.
  cbv zeta. split; [vm_compute; auto|].
  lazymatch goal with
  | |- exists s', ?r = Some s' /\ _ =>
      let v := eval vm_compute in r in
      lazymatch v with Some ?x => exists x end
  end.
  vm_compute. auto.
Qed.

(* ------------------------------------------------------------------ *)
(** * More on the bit queue *)

Lemma queue_contents_length (q : SerialQueue) :
  Z.of_nat (length (queue_contents q)) = queue_length q.
Proof.
  unfold queue_contents. rewrite length_map, length_seq.
  apply Z2Nat.id. apply queue_length_range.
Qed.

(** X1.  Whatever the order in which the interrupt writes and the main loop
    reads, and wherever the indices stand, the queue answers every read as a
    first-in first-out list would, provided no write finds 15 bits unread. *)
Theorem serial_queue_fifo (ops : list QueueOp) :
  forall q rs l',
    queue_wf q ->
    fifo_ops ops (queue_contents q) = Some (rs, l') ->
    fst (queue_ops ops q) = rs /\
    queue_contents (snd (queue_ops ops q)) = l' /\
    queue_wf (snd (queue_ops ops q)).
Proof.
  induction ops as [|[b|] ops IH]; intros q rs l' Hwf Hf.
  - cbn in *. injection Hf as <- <-. auto.
  - cbn [fifo_ops queue_ops] in *.
    destruct (Nat.ltb_spec (length (queue_contents q)) 15) as [Hlt|]; [|discriminate].
    assert (Hlen : queue_length q < 15).
    { rewrite <- queue_contents_length. lia. }
    apply IH; [now apply write_wf|].
    now rewrite write_contents.
  - cbn [fifo_ops queue_ops] in *.
    destruct (queue_contents q) as [|b l1] eqn:Hc.
    + rewrite (read_empty q Hwf Hc).
      destruct (fifo_ops ops []) as [[rs0 l0]|] eqn:Hf0; [|discriminate].
      injection Hf as <- <-.
      destruct (IH q rs0 l0 Hwf) as (H1 & H2 & H3); [now rewrite Hc|].
      destruct (queue_ops ops q) as [rs1 q1]. cbn in *. subst. auto.
    + destruct (read_contents q b l1 Hwf Hc) as (q1 & Hr & Hwf1 & Hc1).
      rewrite Hr.
      destruct (fifo_ops ops l1) as [[rs0 l0]|] eqn:Hf0; [|discriminate].
      injection Hf as <- <-.
      destruct (IH q1 rs0 l0 Hwf1) as (H1 & H2 & H3); [now rewrite Hc1|].
      destruct (queue_ops ops q1) as [rs1 q2]. cbn in *. subst. auto.
Qed.

Lemma serial_queue_fifo_witness :
  let ops := [QRead; QWrite true; QWrite false; QRead; QWrite true; QRead; QRead; QRead] in
  let q := mkSerialQueue 4660 14 14 in
  fst (queue_ops ops q) = [None; Some true; Some false; Some true; None] /\
  queue_contents (snd (queue_ops ops q)) = [] /\
  queue_wf (snd (queue_ops ops q)).
Proof.
  apply (serial_queue_fifo
           [QRead; QWrite true; QWrite false; QRead; QWrite true; QRead; QRead; QRead]
           (mkSerialQueue 4660 14 14)).
  - vm_compute. intuition discriminate.
  - vm_compute. reflexivity.
Defined.

(** X2.  A write that finds 15 bits unread brings the write index round to
    the read index: the queue then reads as empty, and the 15 unread bits
    and the new one are all lost to the reader. *)
Theorem serial_queue_sixteenth_write (b : bool) (q : SerialQueue) :
  queue_wf q -> queue_length q = 15 ->
  serial_queue_read (serial_queue_write b q) = None /\
  queue_contents (serial_queue_write b q) = [].
Proof.
  intros Hwf Hlen. pose proof Hwf as (Hd & Hw & Hr).
  assert (E : read_index (serial_queue_write b q) =
              write_index (serial_queue_write b q)).
  { cbn [serial_queue_write read_index write_index].
    rewrite advance_index_mod by assumption.
    unfold queue_length in Hlen. revert Hlen.
    Z.to_euclidean_division_equations. lia. }
  split.
  - unfold serial_queue_read. rewrite E, Z.eqb_refl. reflexivity.
  - unfold queue_contents, queue_length. now rewrite E, Z.sub_diag.
Qed.

Lemma serial_queue_sixteenth_write_witness :
  serial_queue_read
    (serial_queue_write true (write_bits (repeat true 15) serial_queue_init)) = None /\
  queue_contents
    (serial_queue_write true (write_bits (repeat true 15) serial_queue_init)) = [].
Proof.
  apply (serial_queue_sixteenth_write true
           (write_bits (repeat true 15) serial_queue_init)).
  - vm_compute. intuition discriminate.
  - vm_compute. reflexivity.
Defined.

(* ------------------------------------------------------------------ *)
(** * The display side *)

Lemma small_mask_high_bits (m i : Z) :
  0 <= m < 16 -> 4 <= i -> Z.testbit m i = false.
Proof.
  intros Hm Hi. destruct (Z.eq_dec m 0) as [->|Hne]; [apply Z.bits_0|].
  apply Z.bits_above_log2; [lia|].
  assert (Z.log2 m < 4) by (apply Z.log2_lt_pow2; [lia | simpl; lia]). lia.
Qed.

(** X3.  Bit [i] of the mask that [glyph_match_mask] computes says whether
    decimal digit [i] of the value matches the glyph, for the [DIGITS]
    lowest digits; no higher bit is ever set. *)
Theorem glyph_match_mask_bits (v glyph i : Z) :
  0 <= i ->
  Z.testbit (glyph_match_mask v glyph) i =
  (i <? DIGITS) && glyph_matches glyph (decimal_digit v i).
Proof.
  intros Hi. unfold glyph_match_mask, decimal_digit, DIGITS.
  change (Z.to_nat 4) with 4%nat. cbn [glyph_match_mask_from].
  assert (E2 : v / 10 / 10 = v / 100) by (rewrite Z.div_div by lia; reflexivity).
  assert (E3 : v / 10 / 10 / 10 = v / 1000)
    by (rewrite !Z.div_div by lia; reflexivity).
  set (b0 := glyph_matches glyph (v mod 10)).
  set (b1 := glyph_matches glyph (v / 10 mod 10)).
  set (b2 := glyph_matches glyph (v / 10 / 10 mod 10)).
  set (b3 := glyph_matches glyph (v / 10 / 10 / 10 mod 10)).
  assert (Ei : i = 0 \/ i = 1 \/ i = 2 \/ i = 3 \/ 4 <= i) by lia.
  destruct Ei as [-> | [-> | [-> | [-> | Hbig]]]].
  - change (10 ^ 0) with 1. rewrite Z.div_1_r. fold b0.
    destruct b0, b1, b2, b3; reflexivity.
  - change (10 ^ 1) with 10. fold b1. destruct b0, b1, b2, b3; reflexivity.
  - change (10 ^ 2) with 100. rewrite <- E2. fold b2.
    destruct b0, b1, b2, b3; reflexivity.
  - change (10 ^ 3) with 1000. rewrite <- E3. fold b3.
    destruct b0, b1, b2, b3; reflexivity.
  - assert (E : (i <? 4) = false) by (apply Z.ltb_ge; lia).
    rewrite E. cbn [andb]. apply small_mask_high_bits; [|assumption].
    destruct b0, b1, b2, b3; vm_compute; split; congruence.
Qed.

Lemma glyph_match_mask_bits_witness :
  Z.testbit (glyph_match_mask 1234 7) 1 =
  (1 <? DIGITS) && glyph_matches 7 (decimal_digit 1234 1).
Proof. apply (glyph_match_mask_bits 1234 7 1). lia. Defined.

Lemma glyph_match_mask_range (v glyph : Z) :
  0 <= glyph_match_mask v glyph < 16.
Proof.
  unfold glyph_match_mask, DIGITS. change (Z.to_nat 4) with 4%nat.
  cbn [glyph_match_mask_from].
  destruct (glyph_matches glyph (v mod 10)),
           (glyph_matches glyph (v / 10 mod 10)),
           (glyph_matches glyph (v / 10 / 10 mod 10)),
           (glyph_matches glyph (v / 10 / 10 / 10 mod 10));
    vm_compute; split; congruence.
Qed.

(** What starting a glyph cycle does to the state. *)
Lemma send_next_glyph_spec (s : State) :
  0 <= current_glyph s <= 14 ->
  let s' := send_next_glyph s in
  current_glyph s' = (current_glyph s + 1) mod 15 /\
  sr_sender s' =
    init_sr_sender (glyph_match_mask (u16 (display_value s)) (current_glyph s')) /\
  pin_trace s' =
    pin_trace s ++
    (if current_glyph s =? 14 then [pinhigh CNT; pinlow CNT; pinhigh CNT]
     else [pinhigh CNT]) /\
  decoder_fields s' = decoder_fields s /\
  serial_queue s' = serial_queue s.
Proof.
  intros Hg. destruct s as [rn im si sp dv dm dc st cg q snd pt]. fields.
  unfold send_next_glyph. fields.
  assert (Hu : u8 (cg + 1) = cg + 1) by (apply Z.mod_small; lia).
  rewrite Hu.
  destruct (Z.eqb_spec cg 14) as [->|Hne].
  - cbn. rewrite <- app_assoc. auto.
  - destruct (Z.eqb_spec (cg + 1) 15) as [E|E]; [lia|]. fields.
    rewrite Z.mod_small by lia. auto.
Qed.

(** X4.  Starting a glyph cycle moves the cursor from 0..14 to the next
    glyph, wrapping from 14 to 0 without ever resting on the blank glyph
    15; it raises the count line (after a reset pulse on the wrap) and loads
    the sender with the mask of the displayed value for the new glyph. *)
Theorem send_next_glyph_cycle (s : State) :
  0 <= current_glyph s <= 14 ->
  let s' := send_next_glyph s in
  current_glyph s' = (current_glyph s + 1) mod 15 /\
  sr_sender s' =
    init_sr_sender (glyph_match_mask (u16 (display_value s)) (current_glyph s')) /\
  pin_trace s' =
    pin_trace s ++
    (if current_glyph s =? 14 then [pinhigh CNT; pinlow CNT; pinhigh CNT]
     else [pinhigh CNT]) /\
  decoder_fields s' = decoder_fields s /\
  serial_queue s' = serial_queue s.
Proof.
  intros Hg s'.
  destruct (send_next_glyph_spec s Hg) as (Hcur & Hsnd & Hpins & Hdec & Hq).
  split; [exact Hcur|]. split; [exact Hsnd|]. split; [exact Hpins|].
  split; [exact Hdec | exact Hq].
Qed.

Lemma send_next_glyph_cycle_witness :
  let s := set_current_glyph 14 booted in
  let s' := send_next_glyph s in
  current_glyph s' = (current_glyph s + 1) mod 15 /\
  sr_sender s' =
    init_sr_sender (glyph_match_mask (u16 (display_value s)) (current_glyph s')) /\
  pin_trace s' =
    pin_trace s ++
    (if current_glyph s =? 14 then [pinhigh CNT; pinlow CNT; pinhigh CNT]
     else [pinhigh CNT]) /\
  decoder_fields s' = decoder_fields s /\
  serial_queue s' = serial_queue s.
Proof.
  apply (send_next_glyph_cycle (set_current_glyph 14 booted)). vm_compute.
  split; discriminate.
Defined.

Lemma sr_sender_step_busy (s : SRValueSender) :
  index s < 8 -> fst (fst (sr_sender_step s)) <> SRValueSenderStatus_Finished.
Proof.
  intros Hi. unfold sr_sender_step.
  destruct (Z.ltb_spec (index s) 8) as [_|]; [|lia].
  destruct (going_high s);
    [destruct (index s =? 7) | destruct (index s =? 0)]; discriminate.
Qed.

Lemma sr_sender_step_finished (s : SRValueSender) :
  fst (fst (sr_sender_step s)) <> SRValueSenderStatus_Finished -> index s < 8.
Proof.
  unfold sr_sender_step.
  destruct (Z.ltb_spec (index s) 8) as [H|]; [auto|].
  intros H'. now contradiction H'.
Qed.

(** A pass of the main loop while a byte is in transit: one call of the
    sender and nothing else. *)
Lemma display_pass_busy (fuel : nat) (s : State) :
  input_mode s = false -> index (sr_sender s) < 8 ->
  seg7multiplex_loop fuel s =
  Some (emit (snd (fst (sr_sender_step (sr_sender s))))
             (set_sr_sender (snd (sr_sender_step (sr_sender s))) s)).
Proof.
  intros Hm Hi. unfold seg7multiplex_loop, perform_display_step. rewrite Hm.
  unfold sr_sender_step.
  destruct (Z.ltb_spec (index (sr_sender s)) 8) as [_|]; [|lia].
  destruct (going_high (sr_sender s));
    [destruct (index (sr_sender s) =? 7) | destruct (index (sr_sender s) =? 0)];
    reflexivity.
Qed.

Lemma busy_state_eq (s : State) (t bs : bool) (ops opss : list PinOp)
      (snd1 snd2 : SRValueSender) :
  let s1 := if t then seg7multiplex_timer0_interrupt s else s in
  set_refresh_needed (refresh_needed (emit ops (set_sr_sender snd1 s1)) || bs)
    (emit opss (set_sr_sender snd2 (emit ops (set_sr_sender snd1 s1)))) =
  set_refresh_needed (refresh_needed s || (t || bs))
    (emit (ops ++ opss) (set_sr_sender snd2 s)).
Proof.
  destruct s as [rn im si sp dv dm dc st cg q snd pt], t;
    cbv [seg7multiplex_timer0_interrupt emit set_refresh_needed set_sr_sender
         refresh_needed input_mode ser_input ser_input_pos display_value
         display_dotmask digit_count ser_timeout current_glyph serial_queue
         sr_sender pin_trace];
    rewrite <- app_assoc, ?orb_true_r, ?orb_false_r; reflexivity.
Qed.

(** Passes of the main loop while the sender has calls left: each pass is one
    call, and ticks that arrive meanwhile only raise the refresh flag. *)
Lemma display_passes_busy (fuel : nat) (ticks : list bool) :
  forall s,
    input_mode s = false ->
    Forall (fun c => fst c <> SRValueSenderStatus_Finished)
           (fst (sr_sender_run (length ticks) (sr_sender s))) ->
    run fuel (passes ticks) s =
    Some (set_refresh_needed (refresh_needed s || existsb (fun t => t) ticks)
            (emit (ops_of (fst (sr_sender_run (length ticks) (sr_sender s))))
               (set_sr_sender
                  (snd (sr_sender_run (length ticks) (sr_sender s))) s))).
Proof.
  induction ticks as [|t ticks IH]; intros s Hm Hall.
  - destruct s.
    cbv [passes flat_map run length sr_sender_run fst snd ops_of ops_by_call
         map concat existsb emit set_refresh_needed set_sr_sender
         refresh_needed input_mode ser_input ser_input_pos display_value
         display_dotmask digit_count ser_timeout current_glyph serial_queue
         sr_sender pin_trace].
    now rewrite orb_false_r, app_nil_r.
  - cbn [length sr_sender_run] in Hall |- *.
    destruct (sr_sender_step (sr_sender s)) as [[st ops] snd1] eqn:Estep.
    destruct (sr_sender_run (length ticks) snd1) as [calls snd2] eqn:Erun.
    cbn [fst snd] in Hall |- *. inversion Hall as [|? ? Hst Hrest]; subst.
    assert (Hi : index (sr_sender s) < 8).
    { apply sr_sender_step_finished. now rewrite Estep. }
    set (s1 := if t then seg7multiplex_timer0_interrupt s else s).
    assert (Hs1 : input_mode s1 = false /\ sr_sender s1 = sr_sender s).
    { unfold s1. destruct t; auto. }
    destruct Hs1 as (Hm1 & Esnd1).
    assert (Hrun1 : run fuel (passes (t :: ticks)) s =
                    run fuel (passes ticks)
                        (emit ops (set_sr_sender snd1 s1))).
    { transitivity (match seg7multiplex_loop fuel s1 with
                    | None => None
                    | Some s2 => run fuel (passes ticks) s2
                    end).
      - unfold s1. destruct t; reflexivity.
      - rewrite display_pass_busy by (rewrite ?Esnd1; assumption).
        now rewrite Esnd1, Estep. }
    rewrite Hrun1, IH.
    + change (sr_sender (emit ops (set_sr_sender snd1 s1))) with snd1.
      rewrite Erun. cbn [fst snd existsb]. f_equal.
      change (ops_of ((st, ops) :: calls)) with (ops ++ ops_of calls).
      apply busy_state_eq.
    + exact Hm1.
    + change (sr_sender (emit ops (set_sr_sender snd1 s1))) with snd1.
      rewrite Erun. exact Hrest.
Qed.

Lemma bit_calls_busy (b : Z) :
  Forall (fun c => fst c <> SRValueSenderStatus_Finished)
         (flat_map (fun k => bit_calls b (Z.of_nat k)) (seq 0 8)).
Proof. repeat constructor; discriminate. Qed.

(** X5.  One glyph cycle in display mode.  With the sender finished and a
    tick pending, the next pass lowers the count line, starts the next glyph
    and raises the count line; the sixteen passes after it shift the mask of
    the displayed value for that glyph out, most significant bit first.
    Ticks that arrive during these sixteen passes do not disturb the byte:
    they leave the refresh flag raised for the pass that follows. *)
Theorem display_glyph_cycle (fuel : nat) (s : State) (ticks : list bool) :
  input_mode s = false ->
  8 <= index (sr_sender s) ->
  refresh_needed s = true ->
  0 <= current_glyph s <= 14 ->
  length ticks = 16%nat ->
  let g := (current_glyph s + 1) mod 15 in
  let m := glyph_match_mask (u16 (display_value s)) g in
  exists s',
    run fuel (Loop :: passes ticks) s = Some s' /\
    pin_trace s' =
      pin_trace s ++ [pinlow CNT] ++
      (if current_glyph s =? 14 then [pinhigh CNT; pinlow CNT; pinhigh CNT]
       else [pinhigh CNT]) ++
      shift_out_ops m /\
    0 <= m < 16 /\
    current_glyph s' = g /\
    sr_sender s' = mkSRValueSender m 8 false /\
    refresh_needed s' = existsb (fun t => t) ticks /\
    decoder_fields s' = decoder_fields s /\
    serial_queue s' = serial_queue s.
Proof.
  intros Hm Hi Hr Hg Hlen g m.
  set (s0 := set_refresh_needed false (emit [pinlow CNT] s)).
  assert (Hg0 : 0 <= current_glyph s0 <= 14) by exact Hg.
  destruct (send_next_glyph_spec s0 Hg0) as (Eg & Esnd & Ept & Edf & Eq).
  assert (Hr1 : refresh_needed (send_next_glyph s0) = false).
  { unfold send_next_glyph, s0. cbn [current_glyph set_current_glyph
      set_refresh_needed emit].
    destruct (u8 (current_glyph s + 1) =? 15); reflexivity. }
  assert (Hloop : seg7multiplex_loop fuel s = Some (send_next_glyph s0)).
  { unfold seg7multiplex_loop, perform_display_step, sr_sender_step.
    rewrite Hm.
    destruct (Z.ltb_spec (index (sr_sender s)) 8) as [|_]; [lia|].
    cbn [negb].
    replace (set_sr_sender (sr_sender s) s) with s by (destruct s; reflexivity).
    replace (emit [] s) with s
      by (destruct s; unfold emit; cbn; now rewrite app_nil_r).
    cbn [refresh_needed emit]. rewrite Hr. reflexivity. }
  change (current_glyph s0) with (current_glyph s) in *.
  change (display_value s0) with (display_value s) in *.
  change (pin_trace s0) with (pin_trace s ++ [pinlow CNT]) in Ept.
  change (decoder_fields s0) with (decoder_fields s) in Edf.
  change (serial_queue s0) with (serial_queue s) in Eq.
  set (s1 := send_next_glyph s0) in *. clearbody s1. clear s0 Hg0.
  fold g in Eg. rewrite Eg in Esnd. fold m in Esnd.
  assert (Hm1 : input_mode s1 = false).
  { unfold decoder_fields in Edf. injection Edf as -> _ _ _ _ _. exact Hm. }
  cbn [run step]. rewrite Hloop.
  rewrite display_passes_busy; rewrite ?Hlen, ?Esnd, ?sr_sender_full;
    try assumption; [|apply bit_calls_busy].
  eexists. split; [reflexivity|].
  destruct s1 as [rn1 im1 si1 sp1 dv1 dm1 dc1 st1 cg1 q1 snd1 pt1].
  cbn [refresh_needed current_glyph sr_sender pin_trace serial_queue
       decoder_fields input_mode ser_input ser_input_pos display_value
       display_dotmask digit_count set_refresh_needed emit set_sr_sender
       fst snd] in *.
  split.
  { rewrite Ept. rewrite <- !app_assoc. reflexivity. }
  split; [apply glyph_match_mask_range|].
  split; [exact Eg|]. split; [reflexivity|].
  split; [now rewrite Hr1|].
  split; [exact Edf | exact Eq].
Qed.

Lemma display_glyph_cycle_witness :
  exists s',
    run 16 (Loop :: passes (repeat false 15 ++ [true])) booted = Some s' /\
    pin_trace s' =
      pin_trace booted ++ [pinlow CNT] ++
      (if current_glyph booted =? 14 then [pinhigh CNT; pinlow CNT; pinhigh CNT]
       else [pinhigh CNT]) ++
      shift_out_ops
        (glyph_match_mask (u16 (display_value booted))
           ((current_glyph booted + 1) mod 15)) /\
    0 <= glyph_match_mask (u16 (display_value booted))
           ((current_glyph booted + 1) mod 15) < 16 /\
    current_glyph s' = (current_glyph booted + 1) mod 15 /\
    sr_sender s' =
      mkSRValueSender
        (glyph_match_mask (u16 (display_value booted))
           ((current_glyph booted + 1) mod 15)) 8 false /\
    refresh_needed s' = existsb (fun t => t) (repeat false 15 ++ [true]) /\
    decoder_fields s' = decoder_fields booted /\
    serial_queue s' = serial_queue booted.
Proof.
  apply (display_glyph_cycle 16 booted (repeat false 15 ++ [true])).
  - reflexivity.
  - vm_compute. discriminate.
  - reflexivity.
  - vm_compute. split; discriminate.
  - reflexivity.
Defined.

(* ------------------------------------------------------------------ *)
(** * The counters stay in range *)

Lemma accum_add_bit (a p : Z) :
  0 <= p <= 4 -> 0 <= a < 2 ^ p ->
  0 <= u8 (Z.lor a (Z.shiftl 1 p)) < 2 ^ (p + 1).
Proof.
  intros Hp Ha.
  assert (Ep : p = 0 \/ p = 1 \/ p = 2 \/ p = 3 \/ p = 4) by lia.
  destruct Ep as [-> | [-> | [-> | [-> | ->]]]];
    cbn [Z.pow Z.pow_pos Pos.iter Z.mul Pos.mul] in Ha;
    assert (Ea : a = 0 \/ a = 1 \/ a = 2 \/ a = 3 \/ a = 4 \/ a = 5 \/ a = 6 \/
                 a = 7 \/ a = 8 \/ a = 9 \/ a = 10 \/ a = 11 \/ a = 12 \/
                 a = 13 \/ a = 14 \/ a = 15) by lia;
    repeat (destruct Ea as [Ea|Ea]); subst a; try (exfalso; lia);
    vm_compute; split; congruence.
Qed.

Lemma dotmask_add_bit (m c : Z) :
  0 <= c < DIGITS -> 0 <= m < 2 ^ DIGITS ->
  0 <= u8 (Z.lor m (Z.shiftl 1 c)) < 2 ^ DIGITS.
Proof.
  unfold DIGITS. intros Hc Hm.
  assert (Ec : c = 0 \/ c = 1 \/ c = 2 \/ c = 3) by lia.
  change (2 ^ 4) with 16 in *.
  assert (Em : m = 0 \/ m = 1 \/ m = 2 \/ m = 3 \/ m = 4 \/ m = 5 \/ m = 6 \/
               m = 7 \/ m = 8 \/ m = 9 \/ m = 10 \/ m = 11 \/ m = 12 \/
               m = 13 \/ m = 14 \/ m = 15) by lia.
  destruct Ec as [-> | [-> | [-> | ->]]];
    repeat (destruct Em as [Em|Em]); subst m; vm_compute; split; congruence.
Qed.

(** [push_digit] leaves everything but the value, the dot mask and the digit
    count alone, and keeps the dot mask within the digit positions. *)
Lemma push_digit_dotmask (v : Z) (s : State) :
  0 <= digit_count s < DIGITS -> 0 <= display_dotmask s < 2 ^ DIGITS ->
  0 <= display_dotmask (push_digit v s) < 2 ^ DIGITS /\
  current_glyph (push_digit v s) = current_glyph s /\
  sr_sender (push_digit v s) = sr_sender s.
Proof.
  intros Hdc Hdm.
  pose proof (dotmask_add_bit _ _ Hdc Hdm) as Hadd.
  destruct s as [rn im si sp dv dm dc st cg q snd pt].
  unfold push_digit.
  cbn [digit_count display_dotmask display_value set_display_dotmask
       set_display_value set_digit_count current_glyph sr_sender] in *.
  repeat (split_if;
          cbn [digit_count display_dotmask display_value set_display_dotmask
               set_display_value set_digit_count current_glyph sr_sender]);
    auto.
Qed.

Lemma drain_body_ranges (flag : bool) (s : State) :
  0 <= digit_count s < DIGITS -> accum_ok s ->
  0 <= display_dotmask s < 2 ^ DIGITS ->
  match drain_body flag s with
  | Continue s' =>
      accum_ok s' /\ 0 <= display_dotmask s' < 2 ^ DIGITS /\
      current_glyph s' = current_glyph s /\ sr_sender s' = sr_sender s
  | Returned s' =>
      0 <= display_dotmask s' < 2 ^ DIGITS /\
      current_glyph s' = current_glyph s /\ sr_sender s' = sr_sender s
  end.
Proof.
  intros Hdc (Hp & Ha) Hdm. unfold drain_body.
  set (s1 := if flag then set_ser_input _ s else s).
  assert (H1 : 0 <= ser_input s1 < 2 ^ (ser_input_pos s + 1) /\
               ser_input_pos s1 = ser_input_pos s /\
               digit_count s1 = digit_count s /\
               display_dotmask s1 = display_dotmask s /\
               current_glyph s1 = current_glyph s /\
               sr_sender s1 = sr_sender s).
  { unfold s1. destruct flag.
    - split; [apply accum_add_bit; assumption | destruct s; auto 10].
    - split; [|auto 10].
      rewrite Z.pow_add_r by lia. change (2 ^ 1) with 2. lia. }
  clearbody s1. destruct H1 as (Ha1 & Ep1 & Ed1 & Em1 & Eg1 & Es1).
  set (s2 := set_ser_timeout _ (set_ser_input_pos _ s1)).
  assert (H2 : ser_input s2 = ser_input s1 /\
               ser_input_pos s2 = u8 (ser_input_pos s + 1) /\
               digit_count s2 = digit_count s /\
               display_dotmask s2 = display_dotmask s /\
               current_glyph s2 = current_glyph s /\
               sr_sender s2 = sr_sender s).
  { unfold s2. destruct s1. cbn in *. subst. auto 10. }
  clearbody s2. destruct H2 as (Ea2 & Ep2 & Ed2 & Em2 & Eg2 & Es2).
  assert (Hu : u8 (ser_input_pos s + 1) = ser_input_pos s + 1)
    by (apply Z.mod_small; lia).
  rewrite Ep2, Hu.
  destruct (Z.eqb_spec (ser_input_pos s + 1) 5) as [E5|E5].
  - destruct (push_digit_dotmask (ser_input s2) s2) as (Hm3 & Eg3 & Es3).
    { now rewrite Ed2. }
    { now rewrite Em2. }
    set (s3 := push_digit (ser_input s2) s2) in *. clearbody s3.
    assert (E4 : forall s4, s4 = set_ser_input_pos 0 (set_ser_input 0 s3) ->
                 accum_ok s4 /\ 0 <= display_dotmask s4 < 2 ^ DIGITS /\
                 current_glyph s4 = current_glyph s /\
                 sr_sender s4 = sr_sender s /\
                 digit_count s4 = digit_count s3).
    { intros s4 ->. destruct s3. unfold accum_ok. cbn in *.
      repeat split; try lia; congruence. }
    destruct (E4 _ eq_refl) as (H41 & H42 & H43 & H44 & H45).
    set (s4 := set_ser_input_pos 0 (set_ser_input 0 s3)) in *. clearbody s4.
    destruct (digit_count s4 =? DIGITS).
    + destruct s4. unfold end_input_mode. cbn in *. auto.
    + auto.
  - unfold accum_ok. rewrite Ep2, Hu, Ea2, Em2, Eg2, Es2.
    repeat split; try lia.
Qed.

Lemma drain_ranges (fuel : nat) :
  forall s,
    queue_wf (serial_queue s) ->
    queue_length (serial_queue s) <= Z.of_nat fuel ->
    frame_ok s -> accum_ok s ->
    0 <= display_dotmask s < 2 ^ DIGITS ->
    exists r, drain fuel s = Some r /\
      match r with
      | Continue s' =>
          accum_ok s' /\ 0 <= display_dotmask s' < 2 ^ DIGITS /\
          current_glyph s' = current_glyph s /\ sr_sender s' = sr_sender s /\
          (ser_timeout s' = ser_timeout s \/
           ser_timeout s' = MAX_SER_CYCLES_BEFORE_TIMEOUT)
      | Returned s' =>
          0 <= display_dotmask s' < 2 ^ DIGITS /\
          current_glyph s' = current_glyph s /\ sr_sender s' = sr_sender s /\
          ser_timeout s' = 0
      end.
Proof.
  induction fuel as [|fuel IH]; intros s Hq Hlen Hf Ha Hdm.
  - cbn [drain].
    destruct (serial_queue_read (serial_queue s)) as [[flag q']|] eqn:Er.
    + destruct (read_some_length _ _ _ Hq Er) as (_ & _ & Hpos).
      simpl in Hlen. lia.
    + eexists. split; [reflexivity|]. cbv beta iota. auto 10.
  - cbn [drain].
    destruct (serial_queue_read (serial_queue s)) as [[flag q']|] eqn:Er.
    + destruct (read_some_length _ _ _ Hq Er) as (Hq' & Hlen' & _).
      set (s0 := set_serial_queue q' s).
      assert (H0 : frame_ok s0 /\ accum_ok s0 /\
                   display_dotmask s0 = display_dotmask s /\
                   current_glyph s0 = current_glyph s /\
                   sr_sender s0 = sr_sender s /\ serial_queue s0 = q' /\
                   digit_count s0 = digit_count s).
      { unfold s0. destruct s. auto 10. }
      clearbody s0. destruct H0 as (Hf0 & Ha0 & Em0 & Eg0 & Es0 & Eq0 & Ed0).
      assert (Hq0 : queue_wf (serial_queue s0)) by now rewrite Eq0.
      pose proof (drain_body_inv flag s0 Hf0 Hq0) as Hb.
      pose proof (drain_body_frame flag s0) as Hfr.
      pose proof (drain_body_ranges flag s0) as Hrg.
      destruct (drain_body flag s0) as [s1|s1].
      * destruct Hb as (Hf1 & Eq1 & _).
        destruct Hfr as (_ & _ & _ & Est1).
        destruct Hrg as (Ha1 & Hm1 & Eg1 & Es1);
          [apply Hf0 | exact Ha0 | now rewrite Em0 |].
        destruct (IH s1) as (r & Hr & Hres); try assumption.
        { now rewrite Eq1. }
        { rewrite Eq1, Eq0, Hlen'. lia. }
        exists r. split; [exact Hr|].
        destruct r as [s2|s2].
        -- destruct Hres as (H1 & H2 & H3 & H4 & H5).
           refine (conj H1 (conj H2 (conj _ (conj _ _)))); try congruence.
           right. destruct H5 as [H5|H5]; congruence.
        -- destruct Hres as (H2 & H3 & H4 & H5).
           refine (conj H2 (conj _ (conj _ H5))); congruence.
      * destruct Hfr as (_ & Est1 & _).
        destruct Hrg as (Hm1 & Eg1 & Es1);
          [apply Hf0 | exact Ha0 | now rewrite Em0 |].
        eexists. split; [reflexivity|].
        refine (conj Hm1 (conj _ (conj _ Est1))); congruence.
    + eexists. split; [reflexivity|]. cbv beta iota. auto 10.
Qed.

Lemma loop_ranges (fuel : nat) (s : State) :
  (15 <= fuel)%nat -> unit_inv s -> ranges_inv s ->
  exists s', seg7multiplex_loop fuel s = Some s' /\ ranges_inv s'.
Proof.
  intros Hfuel (Hq & Hdv & Hf & Hrest) (Ht & Hg & Hi & Hdm & Hacc).
  unfold MAX_SER_CYCLES_BEFORE_TIMEOUT in *.
  unfold seg7multiplex_loop.
  destruct (input_mode s) eqn:Hm.
  - set (s1 := if ser_timeout s =? 0 then begin_input_mode s else s).
    assert (H1 : frame_ok s1 /\ accum_ok s1 /\
                 0 <= display_dotmask s1 < 2 ^ DIGITS /\
                 serial_queue s1 = serial_queue s /\
                 1 <= ser_timeout s1 <= 3 /\
                 current_glyph s1 = current_glyph s /\
                 sr_sender s1 = sr_sender s).
    { unfold s1. destruct (Z.eqb_spec (ser_timeout s) 0) as [E|E].
      - destruct s. unfold begin_input_mode, frame_ok, accum_ok, DIGITS,
          MAX_SER_CYCLES_BEFORE_TIMEOUT. cbn. repeat split; lia.
      - repeat split; auto; try apply Hf; try apply Hacc; auto; lia. }
    clearbody s1. destruct H1 as (Hf1 & Ha1 & Hm1 & Eq1 & Ht1 & Eg1 & Es1).
    destruct (drain_ranges fuel s1) as (r & Hr & Hres); try assumption.
    { now rewrite Eq1. }
    { rewrite Eq1. pose proof (queue_length_range (serial_queue s)). lia. }
    rewrite Hr. destruct r as [s2|s2].
    + destruct Hres as (Ha2 & Hm2 & Eg2 & Es2 & Et2).
      assert (Ht2 : 1 <= ser_timeout s2 <= 3).
      { unfold MAX_SER_CYCLES_BEFORE_TIMEOUT in Et2. destruct Et2; lia. }
      rewrite Eg1 in Eg2. rewrite Es1 in Es2.
      assert (Hg2 : 0 <= current_glyph s2 <= 14) by (rewrite Eg2; exact Hg).
      assert (Hi2 : 0 <= index (sr_sender s2) <= 8) by (rewrite Es2; exact Hi).
      destruct (refresh_needed s2).
      * assert (Hu : u8 (ser_timeout s2 - 1) = ser_timeout s2 - 1)
          by (apply Z.mod_small; lia).
        cbn [set_refresh_needed set_ser_timeout ser_timeout]. rewrite Hu.
        destruct (Z.eqb_spec (ser_timeout s2 - 1) 0) as [E|E].
        -- eexists. split; [reflexivity|].
           destruct s2. unfold ranges_inv, end_input_mode, DIGITS,
             MAX_SER_CYCLES_BEFORE_TIMEOUT. cbn in *.
           repeat split; try lia.
        -- eexists. split; [reflexivity|].
           destruct s2. unfold ranges_inv, accum_ok,
             MAX_SER_CYCLES_BEFORE_TIMEOUT in *. cbn in *.
           repeat split; try lia.
      * eexists. split; [reflexivity|].
        unfold ranges_inv, MAX_SER_CYCLES_BEFORE_TIMEOUT.
        rewrite Eg2, Es2. repeat split; try lia; apply Ha2.
    + destruct Hres as (Hm2 & Eg2 & Es2 & Et2).
      eexists. split; [reflexivity|].
      unfold ranges_inv, MAX_SER_CYCLES_BEFORE_TIMEOUT.
      rewrite Eg2, Es2, Eg1, Es1, Et2. repeat split; try lia.
  - unfold perform_display_step, sr_sender_step.
    destruct (Z.ltb_spec (index (sr_sender s)) 8) as [Hlt|Hge].
    + assert (Hu : u8 (index (sr_sender s) + 1) = index (sr_sender s) + 1)
        by (apply Z.mod_small; lia).
      destruct (going_high (sr_sender s)).
      * destruct (index (sr_sender s) =? 7); cbn [negb];
          (eexists; split; [reflexivity|]);
          destruct s; unfold ranges_inv, MAX_SER_CYCLES_BEFORE_TIMEOUT;
          cbn in *; rewrite Hu; repeat split; try lia; apply Hacc.
      * destruct (index (sr_sender s) =? 0); cbn [negb];
          (eexists; split; [reflexivity|]);
          destruct s; unfold ranges_inv, MAX_SER_CYCLES_BEFORE_TIMEOUT;
          cbn in *; repeat split; try lia; apply Hacc.
    + cbn [negb].
      set (s1 := emit [pinlow CNT] (emit [] (set_sr_sender (sr_sender s) s))).
      assert (H1 : ranges_inv s1 /\ refresh_needed s1 = refresh_needed s).
      { unfold s1. destruct s. unfold ranges_inv,
          MAX_SER_CYCLES_BEFORE_TIMEOUT. cbn in *.
        repeat split; try lia; apply Hacc. }
      clearbody s1. destruct H1 as (Hr1 & Ern1).
      destruct (refresh_needed s1).
      * eexists. split; [reflexivity|].
        set (s2 := set_refresh_needed false s1).
        assert (H2 : ranges_inv s2) by (unfold s2; destruct s1; exact Hr1).
        clearbody s2. destruct H2 as (Ht2 & Hg2 & Hi2 & Hdm2 & Hacc2).
        destruct (send_next_glyph_spec s2 Hg2) as (Eg & Esnd & _ & Edf & _).
        assert (Et : ser_timeout (send_next_glyph s2) = ser_timeout s2).
        { unfold send_next_glyph. destruct s2. cbn.
          destruct (_ =? 15); reflexivity. }
        set (s3 := send_next_glyph s2) in *. clearbody s3.
        unfold decoder_fields in Edf.
        injection Edf as _ Esi Esp _ Edm _.
        unfold ranges_inv, accum_ok. rewrite Eg, Esnd, Et, Esi, Esp, Edm.
        cbn [init_sr_sender index].
        pose proof (Z.mod_pos_bound (current_glyph s2 + 1) 15 ltac:(lia)).
        repeat split; try lia; apply Hacc2; assumption.
      * eexists. split; [reflexivity | exact Hr1].
Qed.

Lemma step_ranges (fuel : nat) (e : Event) (s : State) :
  (15 <= fuel)%nat -> unit_inv s -> ranges_inv s ->
  exists s', step fuel e s = Some s' /\ ranges_inv s'.
Proof.
  intros Hfuel Hinv Hr. destruct e as [b| |].
  - eexists. split; [reflexivity|].
    unfold seg7multiplex_int0_interrupt.
    destruct (input_mode s); cbn [negb]; destruct s; exact Hr.
  - eexists. split; [reflexivity|]. destruct s; exact Hr.
  - now apply loop_ranges.
Qed.

Lemma run_ranges (fuel : nat) (evs : list Event) :
  (15 <= fuel)%nat ->
  forall s, unit_inv s -> ranges_inv s ->
  exists s', run fuel evs s = Some s' /\ unit_inv s' /\ ranges_inv s'.
Proof.
  intros Hfuel. induction evs as [|e evs IH]; intros s Hinv Hr.
  - exists s. auto.
  - destruct (step_inv fuel e s Hfuel Hinv) as (s1 & Hs1 & Hinv1).
    destruct (step_ranges fuel e s Hfuel Hinv Hr) as (s1' & Hs1' & Hr1).
    rewrite Hs1 in Hs1'. injection Hs1' as <-.
    cbn [run]. rewrite Hs1. now apply IH.
Qed.

Lemma setup_ranges (s0 : State) : ranges_inv (seg7multiplex_setup s0).
Proof.
  destruct s0. unfold ranges_inv, seg7multiplex_setup,
    MAX_SER_CYCLES_BEFORE_TIMEOUT, DIGITS. cbn.
  repeat split; try lia.
Qed.

(** X6.  The watchdog counter never underflows: after [seg7multiplex_setup],
    whatever edges, ticks and passes follow, [ser_timeout] stays between 0
    and MAX_SER_CYCLES_BEFORE_TIMEOUT. *)
Theorem ser_timeout_bounded (s0 : State) (fuel : nat) (evs : list Event) :
  (15 <= fuel)%nat ->
  exists s,
    run fuel evs (seg7multiplex_setup s0) = Some s /\
    0 <= ser_timeout s <= MAX_SER_CYCLES_BEFORE_TIMEOUT.
Proof.
  intros Hfuel.
  destruct (run_ranges fuel evs Hfuel _ (setup_inv s0) (setup_ranges s0))
    as (s & Hs & _ & Ht & _).
  exists s. auto.
Qed.

Lemma ser_timeout_bounded_witness :
  exists s,
    run 16 [Edge true; Tick; Loop; Edge true; Loop; Tick; Loop; Tick; Loop]
        (seg7multiplex_setup power_on) = Some s /\
    0 <= ser_timeout s <= MAX_SER_CYCLES_BEFORE_TIMEOUT.
Proof. apply (ser_timeout_bounded power_on 16). lia. Defined.

(** X7.  The glyph cursor never rests on the blank glyph and the sender
    never counts past its eight bits: after [seg7multiplex_setup], in every
    state between events, [current_glyph] is in 0..14 and the sender's index
    in 0..8. *)
Theorem glyph_cursor_bounded (s0 : State) (fuel : nat) (evs : list Event) :
  (15 <= fuel)%nat ->
  exists s,
    run fuel evs (seg7multiplex_setup s0) = Some s /\
    0 <= current_glyph s <= 14 /\
    0 <= index (sr_sender s) <= 8.
Proof.
  intros Hfuel.
  destruct (run_ranges fuel evs Hfuel _ (setup_inv s0) (setup_ranges s0))
    as (s & Hs & _ & _ & Hg & Hi & _).
  exists s. auto.
Qed.

Lemma glyph_cursor_bounded_witness :
  exists s,
    run 16 (Loop :: passes (repeat true 40)) (seg7multiplex_setup power_on)
    = Some s /\
    0 <= current_glyph s <= 14 /\
    0 <= index (sr_sender s) <= 8.
Proof. apply (glyph_cursor_bounded power_on 16). lia. Defined.

(** X8.  Only the dot bits of the [DIGITS] digit positions are ever set:
    after [seg7multiplex_setup], [display_dotmask] stays below 16, and while
    a frame is set up the bit accumulator holds fewer than five bits, so
    every group handed to [push_digit] is a 5-bit value. *)
Theorem dotmask_bounded (s0 : State) (fuel : nat) (evs : list Event) :
  (15 <= fuel)%nat ->
  exists s,
    run fuel evs (seg7multiplex_setup s0) = Some s /\
    0 <= display_dotmask s < 16 /\
    (ser_timeout s <> 0 ->
     0 <= ser_input_pos s <= 4 /\ 0 <= ser_input s < 2 ^ ser_input_pos s).
Proof.
  intros Hfuel.
  destruct (run_ranges fuel evs Hfuel _ (setup_inv s0) (setup_ranges s0))
    as (s & Hs & _ & _ & _ & _ & Hdm & Hacc).
  exists s. auto.
Qed.

Lemma dotmask_bounded_witness :
  exists s,
    run 16 (Edge true :: deliver ([] :: map lsb_first [27; 17; 2]))
        (seg7multiplex_setup power_on) = Some s /\
    0 <= display_dotmask s < 16 /\
    (ser_timeout s <> 0 ->
     0 <= ser_input_pos s <= 4 /\ 0 <= ser_input s < 2 ^ ser_input_pos s).
Proof. apply (dotmask_bounded power_on 16). lia. Defined.

(* ------------------------------------------------------------------ *)
(** * Groups of five bits *)

(** Five bits taken with the accumulator empty. *)
Lemma feed_five_bits (g : Z) (s : State) :
  ser_input s = 0 -> ser_input_pos s = 0 -> 0 <= g < 32 ->
  feed (lsb_first g) s =
  let s' := group_flushed (push_digit g (group_taken g s)) in
  if digit_count s' =? DIGITS then Returned (end_input_mode s') else Continue s'.
Proof.
  intros Hsi Hsp Hg.
  destruct s as [rn im si sp dv dm dc st cg q snd pt].
  cbn [ser_input ser_input_pos] in Hsi, Hsp. subst si sp.
  assert (Eg : g = 0 \/ g = 1 \/ g = 2 \/ g = 3 \/ g = 4 \/ g = 5 \/ g = 6 \/
               g = 7 \/ g = 8 \/ g = 9 \/ g = 10 \/ g = 11 \/ g = 12 \/
               g = 13 \/ g = 14 \/ g = 15 \/ g = 16 \/ g = 17 \/ g = 18 \/
               g = 19 \/ g = 20 \/ g = 21 \/ g = 22 \/ g = 23 \/ g = 24 \/
               g = 25 \/ g = 26 \/ g = 27 \/ g = 28 \/ g = 29 \/ g = 30 \/
               g = 31) by lia.
  clear Hg.
  repeat (destruct Eg as [Eg|Eg]); subst g;
    cbv - [push_digit end_input_mode];
    lazymatch goal with
    | |- context [if ?c then Returned _ else Continue _] => destruct c
    end; reflexivity.
Qed.

(** X9.  Five bits that arrive while the accumulator is empty are put
    together least significant bit first, and the group they form is what
    [push_digit] receives; the accumulator is cleared afterwards, and the
    function returns exactly when that digit was the last of the frame. *)
Theorem feed_group (g : Z) (s : State) :
  ser_input s = 0 -> ser_input_pos s = 0 -> 0 <= g < 32 ->
  feed (lsb_first g) s =
  let s' := group_flushed (push_digit g (group_taken g s)) in
  if digit_count s' =? DIGITS then Returned (end_input_mode s') else Continue s'.
Proof.
  intros Hsi Hsp Hg. apply feed_five_bits; assumption.
Qed.

Lemma feed_group_witness :
  feed (lsb_first 19) (begin_input_mode booted) =
  let s' := group_flushed (push_digit 19 (group_taken 19 (begin_input_mode booted))) in
  if digit_count s' =? DIGITS then Returned (end_input_mode s') else Continue s'.
Proof.
  apply (feed_group 19 (begin_input_mode booted)).
  - reflexivity.
  - reflexivity.
  - lia.
Defined.

Lemma group_of_fields (d : Z) (dot : bool) :
  0 <= d <= 15 ->
  negb (Z.land (group_of d dot) 16 =? 0) = dot /\
  Z.land (group_of d dot) 15 = d /\
  (dot = false -> group_of d dot = d).
Proof.
  intros Hd.
  assert (Ed : d = 0 \/ d = 1 \/ d = 2 \/ d = 3 \/ d = 4 \/ d = 5 \/ d = 6 \/
               d = 7 \/ d = 8 \/ d = 9 \/ d = 10 \/ d = 11 \/ d = 12 \/
               d = 13 \/ d = 14 \/ d = 15) by lia.
  repeat (destruct Ed as [Ed|Ed]); subst d; destruct dot; vm_compute;
    repeat split; congruence.
Qed.

(** [push_digit] on a group that carries a digit. *)
Lemma push_digit_digit (d : Z) (dot : bool) (s : State) :
  0 <= d <= 9 ->
  0 <= digit_count s < DIGITS ->
  0 <= display_value s < 10 ^ digit_count s ->
  push_digit (group_of d dot) s =
  set_digit_count (digit_count s + 1)
    (set_display_value (display_value s + d * 10 ^ digit_count s)
       (if dot
        then set_display_dotmask
               (u8 (Z.lor (display_dotmask s) (Z.shiftl 1 (digit_count s)))) s
        else s)).
Proof.
  intros Hd Hdc Hdv.
  destruct (group_of_fields d dot ltac:(lia)) as (Edot & Elow & Eplain).
  destruct (int_pow10_digits _ Hdc) as (Epow & Hpow & _).
  unfold push_digit. rewrite Edot.
  assert (Hinc : u8 (digit_count s + 1) = digit_count s + 1)
    by (apply Z.mod_small; unfold DIGITS in Hdc; lia).
  destruct s as [rn im si sp dv dm dc st cg q snd pt].
  cbn [digit_count display_value display_dotmask] in *.
  destruct dot;
    [rewrite Elow | rewrite (Eplain eq_refl)];
    (destruct (Z.geb_spec d 10); [lia|]);
    cbn [set_display_dotmask digit_count];
    (destruct (Z.eqb_spec dc 0) as [->|Hne];
     cbv [set_display_dotmask set_display_value set_digit_count
          refresh_needed input_mode ser_input ser_input_pos display_value
          display_dotmask digit_count ser_timeout current_glyph serial_queue
          sr_sender pin_trace];
     rewrite Hinc;
     [ change (10 ^ 0) with 1 in *; replace dv with 0 by lia;
       rewrite Z.mul_1_r; reflexivity
     | rewrite Epow;
       assert (Hprod : 0 <= d * 10 ^ dc <= 9 * 10 ^ dc) by nia;
       unfold u32; rewrite (Z.mod_small (d * 10 ^ dc)) by lia;
       rewrite Z.mod_small by lia; reflexivity ]).
Qed.

(** X10.  [push_digit] on a group that carries a digit 0..9: the digit takes
    decimal place [digit_count] of [display_value], the dot flag sets bit
    [digit_count] of [display_dotmask], and [digit_count] goes up by one;
    nothing else changes. *)
Theorem push_digit_valid (d : Z) (dot : bool) (s : State) :
  0 <= d <= 9 ->
  0 <= digit_count s < DIGITS ->
  0 <= display_value s < 10 ^ digit_count s ->
  push_digit (group_of d dot) s =
  set_digit_count (digit_count s + 1)
    (set_display_value (display_value s + d * 10 ^ digit_count s)
       (if dot
        then set_display_dotmask
               (u8 (Z.lor (display_dotmask s) (Z.shiftl 1 (digit_count s)))) s
        else s)).
Proof.
  intros Hd Hdc Hdv. apply push_digit_digit; assumption.
Qed.

Lemma push_digit_valid_witness :
  let s := set_digit_count 2 (set_display_value 21 (begin_input_mode booted)) in
  push_digit (group_of 7 true) s =
  set_digit_count (digit_count s + 1)
    (set_display_value (display_value s + 7 * 10 ^ digit_count s)
       (if true
        then set_display_dotmask
               (u8 (Z.lor (display_dotmask s) (Z.shiftl 1 (digit_count s)))) s
        else s)).
Proof.
  apply (push_digit_valid 7 true
           (set_digit_count 2 (set_display_value 21 (begin_input_mode booted)))).
  - lia.
  - vm_compute. split; [discriminate | reflexivity].
  - vm_compute. split; [discriminate | reflexivity].
Defined.

(** X11.  A group with the dot flag clear and a value of 10 to 15 is
    skipped: once its five bits are in, the decoder is where it was before
    them, except that the watchdog has been re-armed; the bits that follow
    are decoded as if the group had not been sent. *)
Theorem feed_invalid_group (g : Z) (rest : list bool) (s : State) :
  ser_input s = 0 -> ser_input_pos s = 0 ->
  digit_count s <> DIGITS ->
  10 <= g <= 15 ->
  feed (lsb_first g ++ rest) s =
  feed rest (set_ser_timeout MAX_SER_CYCLES_BEFORE_TIMEOUT s).
Proof.
  intros Hsi Hsp Hdc Hg.
  rewrite feed_app, feed_five_bits by (assumption || lia).
  assert (Edot : Z.land g 16 = 0).
  { assert (Eg : g = 10 \/ g = 11 \/ g = 12 \/ g = 13 \/ g = 14 \/ g = 15) by lia.
    repeat (destruct Eg as [Eg|Eg]); subst g; reflexivity. }
  rewrite (push_digit_invalid_undotted g _ Edot) by lia.
  destruct s as [rn im si sp dv dm dc st cg q snd pt].
  cbn [ser_input ser_input_pos digit_count] in *. subst si sp.
  cbv [group_flushed group_taken set_ser_input set_ser_input_pos
       set_ser_timeout refresh_needed input_mode ser_input ser_input_pos
       display_value display_dotmask digit_count ser_timeout current_glyph
       serial_queue sr_sender pin_trace].
  destruct (Z.eqb_spec dc DIGITS); [contradiction | reflexivity].
Qed.

Lemma feed_invalid_group_witness :
  feed (lsb_first 11 ++ lsb_first 7) (begin_input_mode booted) =
  feed (lsb_first 7)
       (set_ser_timeout MAX_SER_CYCLES_BEFORE_TIMEOUT (begin_input_mode booted)).
Proof.
  apply (feed_invalid_group 11 (lsb_first 7) (begin_input_mode booted)).
  - reflexivity.
  - reflexivity.
  - vm_compute. discriminate.
  - lia.
Defined.

(* ------------------------------------------------------------------ *)
(** * A frame takes twenty bits *)

Lemma push_digit_count (v : Z) (s : State) :
  digit_count (push_digit v s) = digit_count s \/
  digit_count (push_digit v s) = u8 (digit_count s + 1).
Proof.
  destruct s as [rn im si sp dv dm dc st cg q snd pt]. unfold push_digit.
  cbn [digit_count display_value display_dotmask set_display_dotmask].
  repeat (split_if;
          cbn [digit_count set_display_value set_display_dotmask
               set_digit_count]); auto.
Qed.

Lemma drain_body_bits (flag : bool) (s : State) :
  0 <= ser_input_pos s <= 4 -> 0 <= digit_count s ->
  match drain_body flag s with
  | Continue s' =>
      0 <= ser_input_pos s' <= 4 /\ 0 <= digit_count s' /\
      bits_taken s' <= bits_taken s + 1
  | Returned s' => 5 * DIGITS <= bits_taken s + 1
  end.
Proof.
  intros Hp Hd. unfold drain_body.
  set (s1 := if flag then set_ser_input _ s else s).
  assert (H1 : ser_input_pos s1 = ser_input_pos s /\
               digit_count s1 = digit_count s).
  { unfold s1. destruct flag, s; auto. }
  clearbody s1. destruct H1 as (Ep1 & Ed1).
  set (s2 := set_ser_timeout _ (set_ser_input_pos _ s1)).
  assert (H2 : ser_input_pos s2 = ser_input_pos s + 1 /\
               digit_count s2 = digit_count s).
  { unfold s2. destruct s1. cbn in *. subst.
    split; [apply Z.mod_small; lia | reflexivity]. }
  clearbody s2. destruct H2 as (Ep2 & Ed2). rewrite Ep2.
  unfold bits_taken, DIGITS in *.
  destruct (Z.eqb_spec (ser_input_pos s + 1) 5) as [E5|E5].
  - pose proof (push_digit_count (ser_input s2) s2) as Hc.
    set (s3 := push_digit (ser_input s2) s2) in *. clearbody s3.
    rewrite Ed2 in Hc.
    assert (Hc' : digit_count s3 <= digit_count s + 1 /\ 0 <= digit_count s3).
    { unfold u8 in Hc. destruct Hc as [Hc|Hc]; rewrite Hc;
        Z.to_euclidean_division_equations; lia. }
    change (digit_count (set_ser_input_pos 0 (set_ser_input 0 s3)))
      with (digit_count s3).
    destruct (Z.eqb_spec (digit_count s3) 4) as [E4|E4].
    + lia.
    + change (ser_input_pos (set_ser_input_pos 0 (set_ser_input 0 s3))) with 0.
      change (digit_count (set_ser_input_pos 0 (set_ser_input 0 s3)))
        with (digit_count s3).
      lia.
  - rewrite Ep2, Ed2. lia.
Qed.

Lemma feed_short (l : list bool) :
  forall s,
    0 <= ser_input_pos s <= 4 -> 0 <= digit_count s ->
    bits_taken s + Z.of_nat (length l) < 5 * DIGITS ->
    exists s', feed l s = Continue s'.
Proof.
  induction l as [|b l IH]; intros s Hp Hd Hlen.
  - exists s. reflexivity.
  - cbn [feed]. cbn [length] in Hlen. rewrite Nat2Z.inj_succ in Hlen.
    pose proof (drain_body_bits b s Hp Hd) as Hb.
    destruct (drain_body b s) as [s1|s1].
    + destruct Hb as (Hp1 & Hd1 & Hb1). apply IH; try assumption. lia.
    + lia.
Qed.

(** X12.  A frame is never completed early: after the announce edge, as
    long as fewer than 5 * DIGITS = 20 data bits have arrived (in chunks of
    at most 15, a pass of the main loop after each chunk, no timer tick),
    the unit is still in input mode, whatever the bits are. *)
Theorem frame_needs_twenty_bits (fuel : nat) (s : State) (b : bool)
        (chunks : list (list bool)) :
  display_idle s -> queue_wf (serial_queue s) -> (15 <= fuel)%nat ->
  Forall (fun c => (length c <= 15)%nat) chunks ->
  (length (concat chunks) < 20)%nat ->
  exists s',
    run fuel (Edge b :: deliver chunks) s = Some s' /\ input_mode s' = true.
Proof.
  intros (Hm & Ht & Hq) Hwf Hfuel Hall Hlen.
  destruct (feed_short (concat chunks) (begin_input_mode s)) as (t' & Hfeed).
  { cbn. lia. }
  { cbn. lia. }
  { unfold bits_taken, DIGITS. cbn. lia. }
  cbn [run step]. unfold seg7multiplex_int0_interrupt. rewrite Hm. cbn [negb].
  assert (Htr : tracks (set_input_mode true s) (begin_input_mode s)).
  { assert (Hc0 : queue_contents (serial_queue s) = []).
    { unfold queue_contents, queue_length. now rewrite Hq, Z.sub_diag. }
    refine (conj eq_refl (conj Hwf (conj Hc0 (or_introl (conj Ht eq_refl))))). }
  destruct (run_chunks fuel chunks _ _ t' Htr Hall Hfuel Hfeed)
    as (s' & Hs' & Htr').
  exists s'. split; [exact Hs' | apply Htr'].
Qed.

Lemma frame_needs_twenty_bits_witness :
  exists s',
    run 16 (Edge true :: deliver [repeat true 15; [false; true; true; false]])
        booted = Some s' /\
    input_mode s' = true.
Proof.
  apply (frame_needs_twenty_bits 16 booted true
           [repeat true 15; [false; true; true; false]]).
  - repeat split.
  - apply init_wf.
  - lia.
  - repeat constructor; cbn; lia.
  - cbn. lia.
Defined.

(* ------------------------------------------------------------------ *)
(** * Decoding any frame *)

(** The five bits of a valid group, taken with the accumulator empty. *)
Lemma feed_valid_group (d : Z) (dot : bool) (s : State) :
  ser_input s = 0 -> ser_input_pos s = 0 ->
  0 <= d <= 9 -> 0 <= digit_count s < DIGITS ->
  0 <= display_value s < 10 ^ digit_count s ->
  exists s',
    feed (lsb_first (group_of d dot)) s =
      (if digit_count s + 1 =? DIGITS
       then Returned (end_input_mode s') else Continue s') /\
    ser_input s' = 0 /\ ser_input_pos s' = 0 /\
    digit_count s' = digit_count s + 1 /\
    display_value s' = display_value s + d * 10 ^ digit_count s /\
    display_dotmask s' =
      (if dot then u8 (Z.lor (display_dotmask s) (Z.shiftl 1 (digit_count s)))
       else display_dotmask s).
Proof.
  intros Hsi Hsp Hd Hdc Hdv.
  assert (Hg : 0 <= group_of d dot < 32) by (unfold group_of; destruct dot; lia).
  rewrite (feed_five_bits _ s Hsi Hsp Hg). cbv zeta.
  rewrite push_digit_digit by (destruct s; assumption).
  destruct s as [rn im si sp dv dm dc st cg q snd pt].
  cbn [ser_input ser_input_pos digit_count display_value display_dotmask] in *.
  destruct dot; eexists;
    (split;
     [ cbv [group_flushed group_taken set_ser_input set_ser_input_pos
            set_ser_timeout set_digit_count set_display_value
            set_display_dotmask refresh_needed input_mode ser_input
            ser_input_pos display_value display_dotmask digit_count
            ser_timeout current_glyph serial_queue sr_sender pin_trace];
       reflexivity
     | cbn; auto ]).
Qed.

Lemma frame_decoded (d0 d1 d2 d3 : Z) (p0 p1 p2 p3 : bool) (s : State) :
  0 <= d0 <= 9 -> 0 <= d1 <= 9 -> 0 <= d2 <= 9 -> 0 <= d3 <= 9 ->
  exists t,
    feed (frame_bits [group_of d0 p0; group_of d1 p1;
                      group_of d2 p2; group_of d3 p3])
         (begin_input_mode s) = Returned t /\
    decoder_fields t =
      (false, 0, 0, d0 + 10 * d1 + 100 * d2 + 1000 * d3,
       Z.b2z p0 + 2 * Z.b2z p1 + 4 * Z.b2z p2 + 8 * Z.b2z p3, 4).
Proof.
  intros H0 H1 H2 H3. unfold frame_bits. cbn [map concat].
  rewrite app_nil_r.
  set (t0 := begin_input_mode s).
  assert (F0 : ser_input t0 = 0 /\ ser_input_pos t0 = 0 /\ digit_count t0 = 0 /\
               display_value t0 = 0 /\ display_dotmask t0 = 0).
  { unfold t0. destruct s. cbn. auto. }
  clearbody t0. destruct F0 as (A0 & B0 & C0 & D0 & E0).
  destruct (feed_valid_group d0 p0 t0) as (t1 & Hf1 & A1 & B1 & C1 & D1 & E1);
    try assumption; rewrite ?C0, ?D0; unfold DIGITS; try (cbn; lia).
  rewrite C0 in *. rewrite D0 in *. rewrite E0 in E1.
  change (0 + 1 =? DIGITS) with false in Hf1. cbv iota in Hf1.
  change (10 ^ 0) with 1 in D1. cbn [Z.add] in C1.
  destruct (feed_valid_group d1 p1 t1) as (t2 & Hf2 & A2 & B2 & C2 & D2 & E2);
    try assumption; rewrite ?C1, ?D1; unfold DIGITS; try (cbn; lia).
  rewrite C1 in *. rewrite D1 in *. rewrite E1 in E2.
  change (1 + 1 =? DIGITS) with false in Hf2. cbv iota in Hf2.
  change (10 ^ 1) with 10 in D2. cbn [Z.add Pos.add] in C2.
  destruct (feed_valid_group d2 p2 t2) as (t3 & Hf3 & A3 & B3 & C3 & D3 & E3);
    try assumption; rewrite ?C2, ?D2; unfold DIGITS; try (cbn; lia).
  rewrite C2 in *. rewrite D2 in *. rewrite E2 in E3.
  change (2 + 1 =? DIGITS) with false in Hf3. cbv iota in Hf3.
  change (10 ^ 2) with 100 in D3. cbn [Z.add Pos.add Pos.succ] in C3.
  destruct (feed_valid_group d3 p3 t3) as (t4 & Hf4 & A4 & B4 & C4 & D4 & E4);
    try assumption; rewrite ?C3, ?D3; unfold DIGITS; try (cbn; lia).
  rewrite C3 in *. rewrite D3 in *. rewrite E3 in E4.
  change (3 + 1 =? DIGITS) with true in Hf4. cbv iota in Hf4.
  change (10 ^ 3) with 1000 in D4. cbn [Z.add Pos.add Pos.succ] in C4.
  exists (end_input_mode t4). split.
  - rewrite feed_app, Hf1. cbv beta iota.
    rewrite feed_app, Hf2. cbv beta iota.
    rewrite feed_app, Hf3. cbv beta iota. exact Hf4.
  - assert (Hv : display_value t4 = d0 + 10 * d1 + 100 * d2 + 1000 * d3)
      by (rewrite D4; lia).
    assert (Hm : display_dotmask t4 =
                 Z.b2z p0 + 2 * Z.b2z p1 + 4 * Z.b2z p2 + 8 * Z.b2z p3)
      by (rewrite E4; destruct p0, p1, p2, p3; reflexivity).
    transitivity (false, ser_input t4, ser_input_pos t4, display_value t4,
                  display_dotmask t4, digit_count t4).
    + destruct t4; reflexivity.
    + now rewrite A4, B4, C4, Hv, Hm.
Qed.

(** X13.  Any frame decodes, whatever the delivery schedule.  From display
    mode at rest, after the announce edge, four groups carrying the digits
    d0..d3 (each 0..9) and the dot flags p0..p3 arrive least significant bit
    first, in chunks of at most 15 bits with a pass of the main loop after
    each chunk.  The pass after the last bit leaves input mode with
    [display_value] = d0 + 10 d1 + 100 d2 + 1000 d3 (first digit in the ones
    place), [digit_count] = 4, and bit i of [display_dotmask] equal to the
    dot flag of digit i. *)
Theorem decode_any_frame (fuel : nat) (s : State) (b : bool)
        (chunks : list (list bool)) (c : list bool)
        (d0 d1 d2 d3 : Z) (p0 p1 p2 p3 : bool) :
  display_idle s -> queue_wf (serial_queue s) -> (15 <= fuel)%nat ->
  Forall (fun c => (length c <= 15)%nat) (chunks ++ [c]) ->
  c <> [] ->
  0 <= d0 <= 9 -> 0 <= d1 <= 9 -> 0 <= d2 <= 9 -> 0 <= d3 <= 9 ->
  concat (chunks ++ [c]) =
    frame_bits [group_of d0 p0; group_of d1 p1; group_of d2 p2; group_of d3 p3] ->
  exists s',
    run fuel (Edge b :: deliver (chunks ++ [c])) s = Some s' /\
    display_value s' = d0 + 10 * d1 + 100 * d2 + 1000 * d3 /\
    digit_count s' = 4 /\
    input_mode s' = false /\
    display_dotmask s' =
      Z.b2z p0 + 2 * Z.b2z p1 + 4 * Z.b2z p2 + 8 * Z.b2z p3.
Proof.
  intros Hidle Hwf Hfuel Hall Hc H0 H1 H2 H3 Hbits.
  destruct (frame_decoded d0 d1 d2 d3 p0 p1 p2 p3 s H0 H1 H2 H3)
    as (t & Hfeed & Ef).
  rewrite <- Hbits, concat_app in Hfeed. cbn [concat] in Hfeed.
  rewrite app_nil_r in Hfeed.
  assert (Hlen : (length (concat chunks) < 20)%nat).
  { assert (Htot : length (concat (chunks ++ [c])) = 20%nat)
      by (rewrite Hbits; reflexivity).
    rewrite concat_app, length_app in Htot. cbn [concat] in Htot.
    rewrite app_nil_r in Htot.
    destruct c; [contradiction | cbn [length] in Htot; lia]. }
  destruct (feed_short (concat chunks) (begin_input_mode s)) as (t1 & Hf1).
  { cbn. lia. }
  { cbn. lia. }
  { unfold bits_taken, DIGITS. cbn. lia. }
  rewrite feed_app, Hf1 in Hfeed.
  destruct (decode_frame fuel s b chunks c t1 t Hidle Hwf Hall Hfuel Hf1 Hfeed)
    as (s' & Hrun & E').
  exists s'. split; [exact Hrun|].
  rewrite Ef in E'. unfold decoder_fields in E'.
  injection E' as -> _ _ -> -> ->. auto.
Qed.

Lemma decode_any_frame_witness :
  exists s',
    run 16 (Edge true ::
            deliver ([[]; lsb_first 9 ++ [false; false; false];
                      [true; true] ++ lsb_first 18] ++ [lsb_first 7]))
        booted = Some s' /\
    display_value s' = 9 + 10 * 8 + 100 * 2 + 1000 * 7 /\
    digit_count s' = 4 /\
    input_mode s' = false /\
    display_dotmask s' =
      Z.b2z false + 2 * Z.b2z true + 4 * Z.b2z true + 8 * Z.b2z false.
Proof.
  apply (decode_any_frame 16 booted true
           [[]; lsb_first 9 ++ [false; false; false];
            [true; true] ++ lsb_first 18] (lsb_first 7)
           9 8 2 7 false true true false).
  - repeat split.
  - apply init_wf.
  - lia.
  - repeat constructor; cbn; lia.
  - discriminate.
  - lia.
  - lia.
  - lia.
  - lia.
  - reflexivity.
Defined.

(* ------------------------------------------------------------------ *)
(** * The watchdog inside a frame *)

(** A pass of the main loop in input mode with nothing queued and the
    watchdog running. *)
Lemma stalled_pass (fuel : nat) (s : State) :
  input_mode s = true ->
  read_index (serial_queue s) = write_index (serial_queue s) ->
  1 <= ser_timeout s <= MAX_SER_CYCLES_BEFORE_TIMEOUT ->
  seg7multiplex_loop fuel s =
  Some (if refresh_needed s
        then if ser_timeout s =? 1
             then set_display_dotmask 1
                    (end_input_mode
                       (set_ser_timeout 0 (set_refresh_needed false s)))
             else set_ser_timeout (ser_timeout s - 1)
                    (set_refresh_needed false s)
        else s).
Proof.
  intros Hm Hq Ht. unfold MAX_SER_CYCLES_BEFORE_TIMEOUT in Ht.
  unfold seg7multiplex_loop. rewrite Hm.
  destruct (Z.eqb_spec (ser_timeout s) 0) as [E|_]; [lia|].
  rewrite drain_empty by exact Hq.
  destruct (refresh_needed s); [|reflexivity].
  cbn [set_refresh_needed set_ser_timeout ser_timeout].
  assert (Hu : u8 (ser_timeout s - 1) = ser_timeout s - 1)
    by (apply Z.mod_small; lia).
  rewrite Hu.
  destruct (Z.eqb_spec (ser_timeout s) 1) as [E1|E1].
  - rewrite E1. reflexivity.
  - destruct (Z.eqb_spec (ser_timeout s - 1) 0); [lia | reflexivity].
Qed.

Lemma stalled_run (fuel : nat) (evs : list Event) :
  forall s,
    input_mode s = true ->
    read_index (serial_queue s) = write_index (serial_queue s) ->
    1 <= ser_timeout s <= MAX_SER_CYCLES_BEFORE_TIMEOUT ->
    no_edge evs = true ->
    Z.of_nat (ticked_loops (refresh_needed s) evs) < ser_timeout s ->
    exists s',
      run fuel evs s = Some s' /\
      input_mode s' = true /\
      read_index (serial_queue s') = write_index (serial_queue s') /\
      ser_timeout s' =
        ser_timeout s - Z.of_nat (ticked_loops (refresh_needed s) evs) /\
      refresh_needed s' = pending_after (refresh_needed s) evs /\
      decoder_fields s' = decoder_fields s.
Proof.
  induction evs as [|e evs IH]; intros s Hm Hq Ht Hne Hlt.
  - exists s. cbn. rewrite Z.sub_0_r. auto 10.
  - cbn [no_edge forallb] in Hne. apply andb_true_iff in Hne as [He Hne].
    destruct e as [b| |]; [discriminate He| |].
    + cbn [run step ticked_loops pending_after] in *.
      apply (IH (seg7multiplex_timer0_interrupt s)); auto.
    + cbn [run step ticked_loops pending_after] in *.
      rewrite (stalled_pass fuel s Hm Hq Ht).
      unfold MAX_SER_CYCLES_BEFORE_TIMEOUT in *.
      destruct (refresh_needed s) eqn:Hr.
      * destruct (Z.eqb_spec (ser_timeout s) 1) as [E1|E1]; [lia|].
        set (s1 := set_ser_timeout (ser_timeout s - 1)
                     (set_refresh_needed false s)).
        destruct (IH s1) as (s2 & H1 & H2 & H3 & H4 & H5 & H6);
          try assumption; try (unfold s1; cbn; lia).
        exists s2. split; [exact H1|]. split; [exact H2|].
        split; [exact H3|]. split; [|split; [exact H5 | exact H6]].
        rewrite H4. unfold s1. cbn [ser_timeout set_ser_timeout
          set_refresh_needed refresh_needed]. lia.
      * destruct (IH s) as (s2 & H1 & H2 & H3 & H4 & H5 & H6);
          try assumption.
        { rewrite Hr. cbn [Nat.add] in Hlt. exact Hlt. }
        rewrite Hr in *. exists s2. auto 10.
Qed.

(** X14.  A frame that stalls.  In input mode with the watchdog at r (1..3)
    and nothing queued, timer ticks and passes of the main loop without any
    data edge keep the unit in input mode until r passes have found the
    refresh flag raised; the r-th such pass ends input mode, resets the
    queue, sets [display_dotmask] to exactly 1 (dropping the dots received so
    far) and leaves [display_value] and [digit_count] as the digits received
    so far made them. *)
Theorem frame_timeout (fuel : nat) (s : State) (evs : list Event) :
  input_mode s = true ->
  read_index (serial_queue s) = write_index (serial_queue s) ->
  1 <= ser_timeout s <= MAX_SER_CYCLES_BEFORE_TIMEOUT ->
  no_edge evs = true ->
  Z.of_nat (ticked_loops (refresh_needed s) evs) = ser_timeout s - 1 ->
  pending_after (refresh_needed s) evs = true ->
  (exists s1, run fuel evs s = Some s1 /\ input_mode s1 = true /\
              decoder_fields s1 = decoder_fields s) /\
  (exists s2, run fuel (evs ++ [Loop]) s = Some s2 /\
              input_mode s2 = false /\
              display_dotmask s2 = 1 /\
              display_value s2 = display_value s /\
              digit_count s2 = digit_count s /\
              ser_timeout s2 = 0 /\
              serial_queue s2 = serial_queue_init).
Proof.
  intros Hm Hq Ht Hne Hticks Hpend.
  destruct (stalled_run fuel evs s Hm Hq Ht Hne)
    as (s1 & H1 & H2 & H3 & H4 & H5 & H6); [lia|].
  split; [exists s1; auto|].
  rewrite run_app, H1. cbn [run step].
  rewrite stalled_pass;
    [ | exact H2 | exact H3 | unfold MAX_SER_CYCLES_BEFORE_TIMEOUT in *; lia ].
  rewrite H5, Hpend.
  destruct (Z.eqb_spec (ser_timeout s1) 1) as [_|E]; [|lia].
  eexists. split; [reflexivity|].
  unfold decoder_fields in H6. injection H6 as _ _ _ Ev _ Ed.
  destruct s1. cbn in *. auto 10.
Qed.

Lemma frame_timeout_witness :
  let s := set_ser_timeout 2
             (set_digit_count 2 (set_display_value 21
                (set_display_dotmask 2 (begin_input_mode booted)))) in
  (exists s1, run 16 [Loop; Loop; Tick] s = Some s1 /\
              input_mode s1 = true /\
              decoder_fields s1 = decoder_fields s) /\
  (exists s2, run 16 ([Loop; Loop; Tick] ++ [Loop]) s = Some s2 /\
              input_mode s2 = false /\
              display_dotmask s2 = 1 /\
              display_value s2 = display_value s /\
              digit_count s2 = digit_count s /\
              ser_timeout s2 = 0 /\
              serial_queue s2 = serial_queue_init).
Proof.
  apply (frame_timeout 16
           (set_ser_timeout 2
              (set_digit_count 2 (set_display_value 21
                 (set_display_dotmask 2 (begin_input_mode booted)))))
           [Loop; Loop; Tick]).
  - reflexivity.
  - reflexivity.
  - vm_compute. split; discriminate.
  - reflexivity.
  - reflexivity.
  - reflexivity.
Defined.

Lemma drain_body_returned (flag : bool) (s s' : State) :
  drain_body flag s = Returned s' ->
  digit_count s' = DIGITS /\ input_mode s' = false.
Proof.
  unfold drain_body.
  destruct (_ =? 5); [|discriminate].
  match goal with
  | |- (if ?c then _ else _) = _ -> _ => destruct c eqn:E
  end; [|discriminate].
  intros H. injection H as <-. apply Z.eqb_eq in E.
  split; [|reflexivity].
  unfold end_input_mode.
  cbn [digit_count set_serial_queue set_ser_timeout set_input_mode].
  exact E.
Qed.

Lemma drain_rearms (fuel : nat) :
  forall s r,
    drain fuel s = Some r ->
    serial_queue_read (serial_queue s) <> None ->
    match r with
    | Continue s' =>
        ser_timeout s' = MAX_SER_CYCLES_BEFORE_TIMEOUT /\
        input_mode s' = input_mode s /\
        refresh_needed s' = refresh_needed s
    | Returned s' => digit_count s' = DIGITS /\ input_mode s' = false
    end.
Proof.
  induction fuel as [|fuel IH]; intros s r Hd Hne.
  - cbn [drain] in Hd.
    destruct (serial_queue_read (serial_queue s)) as [[flag q']|];
      [discriminate | contradiction].
  - cbn [drain] in Hd.
    destruct (serial_queue_read (serial_queue s)) as [[flag q']|];
      [|contradiction].
    pose proof (drain_body_frame flag (set_serial_queue q' s)) as Hfr.
    pose proof (drain_body_returned flag (set_serial_queue q' s)) as Hret.
    destruct (drain_body flag (set_serial_queue q' s)) as [s1|s1].
    + destruct Hfr as (Eq & Ern & Eim & Est).
      destruct (serial_queue_read (serial_queue s1)) as [p|] eqn:Er1.
      * specialize (IH s1 r Hd). rewrite Er1 in IH.
        specialize (IH ltac:(discriminate)).
        destruct r; [|exact IH].
        destruct IH as (H1 & H2 & H3).
        split; [exact H1|]. split; [now rewrite H2 | now rewrite H3].
      * destruct fuel; cbn [drain] in Hd; rewrite Er1 in Hd;
          injection Hd as <-; auto.
    + injection Hd as <-. now apply Hret.
Qed.

(** X15.  Data re-arms the watchdog.  A pass of the main loop in input mode
    that finds at least one bit queued never ends the frame by timeout: it
    either stays in input mode with at least two ticked passes to go, or it
    leaves input mode because the last digit of the frame was taken. *)
Theorem data_rearms_watchdog (fuel : nat) (s : State) :
  input_mode s = true ->
  queue_wf (serial_queue s) ->
  queue_contents (serial_queue s) <> [] ->
  (15 <= fuel)%nat ->
  exists s',
    seg7multiplex_loop fuel s = Some s' /\
    ((input_mode s' = true /\
      MAX_SER_CYCLES_BEFORE_TIMEOUT - 1 <= ser_timeout s'
        <= MAX_SER_CYCLES_BEFORE_TIMEOUT) \/
     (input_mode s' = false /\ digit_count s' = DIGITS)).
Proof.
  intros Hm Hwf Hc Hfuel. unfold seg7multiplex_loop. rewrite Hm.
  set (s1 := if ser_timeout s =? 0 then begin_input_mode s else s).
  assert (H1 : serial_queue s1 = serial_queue s /\ input_mode s1 = true).
  { unfold s1. destruct (ser_timeout s =? 0); auto. }
  clearbody s1. destruct H1 as (Eq1 & Hm1).
  destruct (drain_feed (queue_contents (serial_queue s)) fuel s1 s1)
    as (r & Hdr & _); rewrite ?Eq1; auto.
  { rewrite <- Nat2Z.id, <- (Nat2Z.id (length _)).
    apply Z2Nat.inj_le; try lia. rewrite queue_contents_length.
    pose proof (queue_length_range (serial_queue s)). lia. }
  rewrite Hdr.
  assert (Hne : serial_queue_read (serial_queue s1) <> None).
  { rewrite Eq1. destruct (queue_contents (serial_queue s)) as [|b l] eqn:E;
      [contradiction|].
    destruct (read_contents _ b l Hwf E) as (q' & Hr & _).
    rewrite Hr. discriminate. }
  pose proof (drain_rearms fuel s1 r Hdr Hne) as Hres.
  unfold MAX_SER_CYCLES_BEFORE_TIMEOUT in *.
  destruct r as [s2|s2].
  - destruct Hres as (Ht2 & Hm2 & _). rewrite Hm1 in Hm2.
    destruct (refresh_needed s2).
    + cbn [set_refresh_needed set_ser_timeout ser_timeout]. rewrite Ht2.
      change (u8 (3 - 1) =? 0) with false. cbv iota.
      eexists. split; [reflexivity|]. left.
      cbn [input_mode ser_timeout set_ser_timeout set_refresh_needed].
      split; [exact Hm2 | vm_compute; split; discriminate].
    + eexists. split; [reflexivity|]. left. split; [exact Hm2 | lia].
  - eexists. split; [reflexivity|]. right. destruct Hres. auto.
Qed.

Lemma data_rearms_watchdog_witness :
  let s := set_serial_queue (mkSerialQueue 1 1 0)
             (set_ser_timeout 1 (begin_input_mode booted)) in
  exists s',
    seg7multiplex_loop 16 s = Some s' /\
    ((input_mode s' = true /\
      MAX_SER_CYCLES_BEFORE_TIMEOUT - 1 <= ser_timeout s'
        <= MAX_SER_CYCLES_BEFORE_TIMEOUT) \/
     (input_mode s' = false /\ digit_count s' = DIGITS)).
Proof.
  apply (data_rearms_watchdog 16
           (set_serial_queue (mkSerialQueue 1 1 0)
              (set_ser_timeout 1 (begin_input_mode booted)))).
  - reflexivity.
  - vm_compute. intuition discriminate.
  - vm_compute. discriminate.
  - lia.
Defined.

(* ------------------------------------------------------------------ *)
(** * The decimal points never reach the pins *)

Lemma dots_erased_inv (s t : State) :
  dots_erased s = dots_erased t ->
  refresh_needed s = refresh_needed t /\ input_mode s = input_mode t /\
  ser_input s = ser_input t /\ ser_input_pos s = ser_input_pos t /\
  display_value s = display_value t /\ digit_count s = digit_count t /\
  ser_timeout s = ser_timeout t /\ current_glyph s = current_glyph t /\
  serial_queue s = serial_queue t /\ sr_sender s = sr_sender t /\
  pin_trace s = pin_trace t.
Proof.
  destruct s, t. unfold dots_erased, set_display_dotmask. cbn.
  intros H. injection H. intros. subst. auto 20.
Qed.

Lemma drain_body_dots (flag : bool) (s t : State) :
  dots_erased s = dots_erased t ->
  flow_dots_erased (drain_body flag s) = flow_dots_erased (drain_body flag t).
Proof.
  intros H. apply dots_erased_inv in H.
  destruct H as (H1 & H2 & H3 & H4 & H5 & H6 & H7 & H8 & H9 & H10 & H11).
  destruct s as [rn im si sp dv dm dc st cg q snd pt].
  destruct t as [rn' im' si' sp' dv' dm' dc' st' cg' q' snd' pt'].
  cbn [refresh_needed input_mode ser_input ser_input_pos display_value
       digit_count ser_timeout current_glyph serial_queue sr_sender
       pin_trace] in *.
  subst.
  unfold drain_body, push_digit, end_input_mode.
  destruct flag; fields;
    repeat (split_if; fields);
    solve [reflexivity | congruence].
Qed.

Lemma drain_dots (fuel : nat) :
  forall s t,
    dots_erased s = dots_erased t ->
    option_map flow_dots_erased (drain fuel s) =
    option_map flow_dots_erased (drain fuel t).
Proof.
  induction fuel as [|fuel IH]; intros s t H.
  - pose proof (dots_erased_inv s t H) as Hi.
    cbn [drain]. replace (serial_queue t) with (serial_queue s) by apply Hi.
    destruct (serial_queue_read (serial_queue s)) as [[flag q']|];
      [reflexivity|]. cbn [option_map flow_dots_erased]. now rewrite H.
  - pose proof (dots_erased_inv s t H) as Hi.
    cbn [drain]. replace (serial_queue t) with (serial_queue s) by apply Hi.
    destruct (serial_queue_read (serial_queue s)) as [[flag q']|];
      [|cbn [option_map flow_dots_erased]; now rewrite H].
    assert (H' : dots_erased (set_serial_queue q' s) =
                 dots_erased (set_serial_queue q' t)).
    { destruct s, t. unfold dots_erased, set_display_dotmask,
        set_serial_queue in *. cbn in *. injection H. intros. subst.
      reflexivity. }
    pose proof (drain_body_dots flag _ _ H') as Hb.
    destruct (drain_body flag (set_serial_queue q' s)) as [s1|s1],
             (drain_body flag (set_serial_queue q' t)) as [t1|t1];
      cbn [flow_dots_erased] in Hb; try discriminate.
    + apply IH. congruence.
    + cbn [option_map flow_dots_erased]. f_equal. exact Hb.
Qed.

Lemma dots_erased_ex (s t : State) :
  dots_erased s = dots_erased t ->
  t = set_display_dotmask (display_dotmask t) s.
Proof.
  destruct s, t. unfold dots_erased, set_display_dotmask. cbn.
  intros H. injection H. intros. subst. reflexivity.
Qed.

Lemma loop_dots (fuel : nat) (s t : State) :
  dots_erased s = dots_erased t ->
  option_map dots_erased (seg7multiplex_loop fuel s) =
  option_map dots_erased (seg7multiplex_loop fuel t).
Proof.
  intros H. rewrite (dots_erased_ex s t H). clear H.
  generalize (display_dotmask t) as x. clear t. intros x.
  unfold seg7multiplex_loop.
  change (input_mode (set_display_dotmask x s)) with (input_mode s).
  destruct (input_mode s).
  - change (ser_timeout (set_display_dotmask x s)) with (ser_timeout s).
    set (s1 := if ser_timeout s =? 0 then begin_input_mode s else s).
    set (t1 := if ser_timeout s =? 0
               then begin_input_mode (set_display_dotmask x s)
               else set_display_dotmask x s).
    assert (E1 : dots_erased s1 = dots_erased t1).
    { unfold s1, t1. destruct (ser_timeout s =? 0); destruct s; reflexivity. }
    clearbody s1 t1.
    pose proof (drain_dots fuel s1 t1 E1) as Hd.
    destruct (drain fuel s1) as [[s2|s2]|], (drain fuel t1) as [[t2|t2]|];
      cbn [option_map flow_dots_erased] in Hd; try discriminate;
      try reflexivity.
    + assert (Hd' : dots_erased s2 = dots_erased t2) by congruence.
      rewrite (dots_erased_ex s2 t2 Hd').
      generalize (display_dotmask t2) as y. intros y.
      change (refresh_needed (set_display_dotmask y s2))
        with (refresh_needed s2).
      destruct (refresh_needed s2); [|destruct s2; reflexivity].
      cbn [set_refresh_needed set_ser_timeout ser_timeout set_display_dotmask].
      destruct (u8 (ser_timeout s2 - 1) =? 0); destruct s2; reflexivity.
    + cbn [option_map]. congruence.
  - unfold perform_display_step.
    change (sr_sender (set_display_dotmask x s)) with (sr_sender s).
    destruct (sr_sender_step (sr_sender s)) as [[st ops] snd'].
    destruct st; cbn [negb option_map]; try (destruct s; reflexivity).
    change (refresh_needed
              (emit [pinlow CNT]
                 (emit ops (set_sr_sender snd' (set_display_dotmask x s)))))
      with (refresh_needed s).
    change (refresh_needed
              (emit [pinlow CNT] (emit ops (set_sr_sender snd' s))))
      with (refresh_needed s).
    destruct (refresh_needed s); cbn [option_map];
      [|destruct s; reflexivity].
    f_equal. unfold send_next_glyph. destruct s.
    cbv [emit set_sr_sender set_refresh_needed set_current_glyph
         set_display_dotmask refresh_needed input_mode ser_input
         ser_input_pos display_value display_dotmask digit_count ser_timeout
         current_glyph serial_queue sr_sender pin_trace].
    destruct (_ =? 15); reflexivity.
Qed.

Lemma step_dots (fuel : nat) (e : Event) (s t : State) :
  dots_erased s = dots_erased t ->
  option_map dots_erased (step fuel e s) =
  option_map dots_erased (step fuel e t).
Proof.
  intros H. destruct e as [b| |].
  - rewrite (dots_erased_ex s t H).
    cbn [step option_map]. f_equal. unfold seg7multiplex_int0_interrupt.
    change (input_mode (set_display_dotmask (display_dotmask t) s))
      with (input_mode s).
    destruct (input_mode s); destruct s; reflexivity.
  - rewrite (dots_erased_ex s t H). destruct s; reflexivity.
  - now apply loop_dots.
Qed.

Lemma run_dots (fuel : nat) (evs : list Event) :
  forall s t,
    dots_erased s = dots_erased t ->
    option_map dots_erased (run fuel evs s) =
    option_map dots_erased (run fuel evs t).
Proof.
  induction evs as [|e evs IH]; intros s t H.
  - cbn [run option_map]. now rewrite H.
  - cbn [run]. pose proof (step_dots fuel e s t H) as Hs.
    destruct (step fuel e s) as [s1|], (step fuel e t) as [t1|];
      cbn [option_map] in Hs; try discriminate; [|reflexivity].
    apply IH. congruence.
Qed.

(** X16.  The decimal points never reach the pins.  Whatever value
    [display_dotmask] holds, every run does the same pin operations and ends
    in the same state up to [display_dotmask] itself: the mask is written by
    the decoder and the watchdog but read by nothing that drives the
    display. *)
Theorem dotmask_never_shown (fuel : nat) (evs : list Event) (s : State) (x : Z) :
  match run fuel evs s, run fuel evs (set_display_dotmask x s) with
  | Some s1, Some s2 =>
      pin_trace s2 = pin_trace s1 /\ dots_erased s2 = dots_erased s1
  | None, None => True
  | _, _ => False
  end.
Proof.
  assert (H : dots_erased s = dots_erased (set_display_dotmask x s))
    by (destruct s; reflexivity).
  pose proof (run_dots fuel evs _ _ H) as Hr.
  destruct (run fuel evs s) as [s1|],
           (run fuel evs (set_display_dotmask x s)) as [s2|];
    cbn [option_map] in Hr; try discriminate; [|exact I].
  assert (Hr' : dots_erased s1 = dots_erased s2) by congruence.
  split; [|now rewrite Hr'].
  symmetry. apply (dots_erased_inv s1 s2 Hr').
Qed.

(* ------------------------------------------------------------------ *)
(** * Display mode and bursts *)

(** X17.  Display mode is always at rest: after [seg7multiplex_setup],
    whatever edges, ticks and passes follow, whenever the unit is not in
    input mode its watchdog is at zero and its queue is empty; the indices of
    the queue are always in range. *)
Theorem display_mode_rests (s0 : State) (fuel : nat) (evs : list Event) :
  (15 <= fuel)%nat ->
  exists s,
    run fuel evs (seg7multiplex_setup s0) = Some s /\
    queue_wf (serial_queue s) /\
    (input_mode s = false -> display_idle s).
Proof.
  intros Hfuel.
  destruct (display_mode_at_rest s0 fuel evs Hfuel) as (s & Hrun & Hwf & Hrest).
  exists s. split; [exact Hrun|]. split; [exact Hwf | exact Hrest].
Qed.

Lemma display_mode_rests_witness :
  exists s,
    run 16 (Edge true :: deliver ([] :: map lsb_first [1; 2; 3; 4]) ++ [Edge true; Loop])
        (seg7multiplex_setup power_on) = Some s /\
    queue_wf (serial_queue s) /\
    (input_mode s = false -> display_idle s).
Proof. apply (display_mode_rests power_on 16). lia. Defined.

(** X18.  A burst of sixteen edges between two passes is lost whole.  In
    input mode with nothing queued, sixteen data edges in a row bring the
    write index back onto the read index: the next pass finds nothing to
    read, so none of the sixteen bits reaches the decoder. *)
Theorem burst_of_sixteen_lost (fuel : nat) (s : State) (c : list bool) :
  input_mode s = true ->
  queue_wf (serial_queue s) ->
  read_index (serial_queue s) = write_index (serial_queue s) ->
  length c = 16%nat ->
  exists s',
    run fuel (map Edge c) s = Some s' /\
    serial_queue_read (serial_queue s') = None /\
    drain fuel s' = Some (Continue s') /\
    decoder_fields s' = decoder_fields s /\
    ser_timeout s' = ser_timeout s.
Proof.
  intros Hm Hwf Hq Hlen.
  rewrite run_edges by exact Hm. eexists. split; [reflexivity|].
  destruct (write_bits_indices c (serial_queue s) Hwf) as (_ & Hr & Hw).
  rewrite Hlen in Hw.
  assert (E : read_index (write_bits c (serial_queue s)) =
              write_index (write_bits c (serial_queue s))).
  { rewrite Hr, Hw, Hq. destruct Hwf as (_ & Hwi & _).
    Z.to_euclidean_division_equations. lia. }
  assert (E' : read_index (serial_queue
                 (set_serial_queue (write_bits c (serial_queue s)) s)) =
               write_index (serial_queue
                 (set_serial_queue (write_bits c (serial_queue s)) s)))
    by exact E.
  split.
  - unfold serial_queue_read. rewrite E', Z.eqb_refl. reflexivity.
  - split; [apply drain_empty; exact E'|]. split; reflexivity.
Qed.

Lemma burst_of_sixteen_lost_witness :
  exists s',
    run 16 (map Edge (repeat true 16)) (begin_input_mode booted) = Some s' /\
    serial_queue_read (serial_queue s') = None /\
    drain 16 s' = Some (Continue s') /\
    decoder_fields s' = decoder_fields (begin_input_mode booted) /\
    ser_timeout s' = ser_timeout (begin_input_mode booted).
Proof.
  apply (burst_of_sixteen_lost 16 (begin_input_mode booted) (repeat true 16)).
  - reflexivity.
  - apply init_wf.
  - reflexivity.
  - reflexivity.
Defined.
